(** * The encryption endpoint of [encrypt.py]

    A shallow embedding of the Flask view [encrypt] and of the four helpers
    it calls ([fetch_secret], [fetch_conf_details], [read_and_encrypt_data],
    [upload_encrypted_data]), with the properties of the pipeline proved
    about it.

    Python [str] values are [string]s holding the UTF-8 bytes of the text.
    The string operations the program uses ([split] on a separator, [lstrip]
    of a character, [+]) act the same way on the bytes as on the code
    points, because UTF-8 is self-synchronising. *)

From Stdlib Require Import Ascii String.
From stdpp Require Import base option list strings gmap.

Local Open Scope string_scope.
Local Open Scope list_scope.

(** ** Exceptions and results *)

(** A raised exception: the name of its class and the text [str(e)] that the
    handlers interpolate in their messages.  Only subclasses of [Exception]
    are modelled: every handler of the program is [except Exception]. *)
Record exn := Exn { exn_class : string; exn_str : string }.

Inductive result (A : Type) : Type :=
| Ok (a : A)
| Raise (e : exn).
Arguments Ok {A} a.
Arguments Raise {A} e.

Definition is_ok {A} (r : result A) : bool :=
  match r with Ok _ => true | Raise _ => false end.

(** ** Python strings *)

Module PyStr.

(** The character [chr(34)], kept out of the literals below. *)
Definition dquote : string := String "034"%char "".

(** [s.startswith(p)] *)
Fixpoint starts_with (p s : string) : bool :=
  match p, s with
  | "", _ => true
  | String _ _, "" => false
  | String a p', String b s' => if Ascii.eqb a b then starts_with p' s' else false
  end.

(** [maxsplit]: [None] is Python's default [-1] (no limit). *)
Definition may_split (left : option nat) : bool :=
  match left with
  | None => true
  | Some 0 => false
  | Some (S _) => true
  end.

Definition one_less (left : option nat) : option nat :=
  match left with
  | None => None
  | Some n => Some (pred n)
  end.

(** The scan of [str.split(sep, maxsplit)] for a non-empty [sep]: left to
    right, cutting at each occurrence of [sep] that does not overlap the
    previous one, until [left] cuts were made.  [skip] counts the
    characters of a matched separator still to pass over.  The result is
    the piece being read and the pieces after it. *)
Fixpoint split_go (sep s : string) (skip : nat) (left : option nat)
  : string * list string :=
  match s with
  | "" => ("", [])
  | String c s' =>
      match skip with
      | S k => split_go sep s' k left
      | 0 =>
          if may_split left && starts_with sep s
          then let '(p, ps) := split_go sep s' (pred (String.length sep)) (one_less left)
               in ("", p :: ps)
          else let '(p, ps) := split_go sep s' 0 left
               in (String c p, ps)
      end
  end.

(** [s.split(sep, maxsplit)]; an empty separator is a [ValueError]. *)
Definition split (sep : string) (maxsplit : option nat) (s : string)
  : result (list string) :=
  match sep with
  | "" => Raise (Exn "ValueError" "empty separator")
  | _ => let '(p, ps) := split_go sep s 0 maxsplit in Ok (p :: ps)
  end.

Fixpoint contains_char (c : ascii) (chars : string) : bool :=
  match chars with
  | "" => false
  | String d chars' => Ascii.eqb c d || contains_char c chars'
  end.

(** [s.lstrip(chars)]: drops every leading character that is in [chars]. *)
Fixpoint lstrip (chars s : string) : string :=
  match s with
  | "" => ""
  | String c s' => if contains_char c chars then lstrip chars s' else s
  end.

(** [l[i]] on a list, for [i >= 0]. *)
Definition index {A} (l : list A) (i : nat) : result A :=
  match l !! i with
  | Some x => Ok x
  | None => Raise (Exn "IndexError" "list index out of range")
  end.

(** [sub in s] *)
Fixpoint occurs (sub s : string) : bool :=
  starts_with sub s ||
  match s with
  | "" => false
  | String _ s' => occurs sub s'
  end.

(** [s[n:]] *)
Fixpoint drop (n : nat) (s : string) : string :=
  match n, s with
  | 0, _ => s
  | S _, "" => ""
  | S n', String _ s' => drop n' s'
  end.

(** [sep.join(pieces)] *)
Fixpoint join (sep : string) (pieces : list string) : string :=
  match pieces with
  | [] => ""
  | [p] => p
  | p :: ps => p +:+ sep +:+ join sep ps
  end.

(** [sub] matches at no position of [s] that lies in its first part [pre],
    where [s] is [pre] followed by [rest]. *)
Fixpoint absent_before (sub pre rest : string) : bool :=
  match pre with
  | "" => true
  | String _ pre' => negb (starts_with sub (pre +:+ rest)) && absent_before sub pre' rest
  end.

End PyStr.

(** ** Values *)

(** What the program handles besides [str]: [None], and the object that
    [json.loads] returns.  The configuration object has string fields; a
    JSON [null] is kept because a field may hold it.  Numbers, booleans,
    arrays and nested objects are outside this model. *)
Inductive scalar : Type :=
| SNone
| SStr (s : string).

Inductive pyval : Type :=
| Scalar (v : scalar)
| Dict (d : gmap string scalar).

(** [str(v)], which is what an f-string field [{v}] interpolates. *)
Definition py_str (v : scalar) : string :=
  match v with
  | SNone => "None"
  | SStr s => s
  end.

(** [type(v).__name__] *)
Definition type_name (v : scalar) : string :=
  match v with
  | SNone => "NoneType"
  | SStr _ => "str"
  end.

(** [a + b].  In this model the only sum that is defined is of two [str]. *)
Definition py_add (a b : scalar) : result string :=
  match a, b with
  | SStr x, SStr y => Ok (x +:+ y)
  | SStr _, _ =>
      Raise (Exn "TypeError"
               ("can only concatenate str (not " +:+ PyStr.dquote +:+ type_name b
                  +:+ PyStr.dquote +:+ ") to str"))
  | _, _ =>
      Raise (Exn "TypeError"
               ("unsupported operand type(s) for +: '" +:+ type_name a
                  +:+ "' and '" +:+ type_name b +:+ "'"))
  end.

(** [conf[key]] for a [str] key.  [str(KeyError(key))] is [repr(key)]; the
    keys of the program are plain identifiers, whose [repr] is the key
    between single quotes. *)
Definition getitem (conf : pyval) (key : string) : result scalar :=
  match conf with
  | Dict d =>
      match d !! key with
      | Some v => Ok v
      | None => Raise (Exn "KeyError" ("'" +:+ key +:+ "'"))
      end
  | Scalar SNone => Raise (Exn "TypeError" "'NoneType' object is not subscriptable")
  | Scalar (SStr _) => Raise (Exn "TypeError" "string indices must be integers, not 'str'")
  end.

(** [v.split(sep, maxsplit)]: [None] has no such attribute. *)
Definition method_split (v : scalar) (sep : string) (maxsplit : option nat)
  : result (list string) :=
  match v with
  | SNone => Raise (Exn "AttributeError" "'NoneType' object has no attribute 'split'")
  | SStr s => PyStr.split sep maxsplit s
  end.

(** ** The external services *)

(** What [gpg.import_keys] returns (its [count] of keys read) and what
    [gpg.encrypt] returns: the success flag [ok], the engine's diagnostic
    [stderr], and the armored text that [str(...)] gives. *)
Record ImportResult := { count : nat }.
Record Crypt := { ok : bool; stderr : string; data : string }.

(** The clients the module holds ([storage_client], [gpg]) and the one
    [fetch_secret] creates, over a state [W] of the world outside the
    process.  Each call returns normally or raises, and may change the
    world.  [bucket] stands for [storage_client.bucket(name)], which makes no
    request but may reject the name; [download_as_text] and
    [upload_from_string] for the request on [bucket.blob(name)];
    [access_secret_version] for the request followed by the decoding of the
    payload; [loads] for [json.loads]. *)
Record Services (W : Type) : Type := {
  SecretManagerServiceClient : W -> result unit * W;
  access_secret_version : string -> W -> result string * W;
  bucket : string -> result unit;
  download_as_text : string -> string -> W -> result string * W;
  upload_from_string : string -> string -> string -> W -> result unit * W;
  import_keys : string -> W -> result ImportResult * W;
  gpg_encrypt : string -> list string -> bool -> W -> result Crypt * W;
  loads : string -> result pyval
}.
Arguments SecretManagerServiceClient {W} _ _.
Arguments access_secret_version {W} _ _ _.
Arguments bucket {W} _ _.
Arguments download_as_text {W} _ _ _ _.
Arguments upload_from_string {W} _ _ _ _ _.
Arguments import_keys {W} _ _ _.
Arguments gpg_encrypt {W} _ _ _ _ _.
Arguments loads {W} _ _.

(** What an invocation does that is visible outside it, in the order it
    happens: every request with its arguments and its outcome, and every
    log record. *)
Inductive level : Type := INFO | ERROR.

Inductive event : Type :=
| Log (lvl : level) (msg : string)
| AccessSecret (name : string) (r : result string)
| Download (bucket_name blob_name : string) (r : result string)
| Upload (bucket_name blob_name payload : string) (r : result unit)
| ImportKeys (key_data : string) (r : result ImportResult)
| Encrypt (plaintext : string) (recipients : list string) (always_trust : bool)
    (r : result Crypt).

(** ** The monad of the program: world, events and exceptions *)

(** What running a piece of the program gives: the value it returns or the
    exception it raises, the world it leaves, and the events it produced. *)
Record run (W A : Type) : Type := Ran {
  value : result A;
  after : W;
  events : list event
}.
Arguments Ran {W A} value after events.
Arguments value {W A} _.
Arguments after {W A} _.
Arguments events {W A} _.

Definition M (W A : Type) : Type := W -> run W A.

Definition ret {W A} (a : A) : M W A := fun w => Ran (Ok a) w [].

Definition raise {W A} (e : exn) : M W A := fun w => Ran (Raise e) w [].

Definition bind {W A B} (m : M W A) (k : A -> M W B) : M W B :=
  fun w =>
    match m w with
    | Ran (Ok a) w1 evs1 =>
        match k a w1 with
        | Ran r w2 evs2 => Ran r w2 (evs1 ++ evs2)
        end
    | Ran (Raise e) w1 evs1 => Ran (Raise e) w1 evs1
    end.

(** [try: body  except Exception as e: handler] *)
Definition try_except {W A} (body : M W A) (handler : exn -> M W A) : M W A :=
  fun w =>
    match body w with
    | Ran (Ok a) w1 evs1 => Ran (Ok a) w1 evs1
    | Ran (Raise e) w1 evs1 =>
        match handler e w1 with
        | Ran r w2 evs2 => Ran r w2 (evs1 ++ evs2)
        end
    end.

(** A computation that cannot touch the world. *)
Definition lift {W A} (r : result A) : M W A := fun w => Ran r w [].

Definition emit {W} (ev : event) : M W unit := fun w => Ran (Ok tt) w [ev].

(** A request to a service: run it on the world and record it. *)
Definition request {W A} (call : W -> result A * W) (ev : result A -> event) : M W A :=
  fun w => let '(r, w1) := call w in Ran r w1 [ev r].

(** A call that makes no request: it may fail and is not recorded. *)
Definition local_call {W A} (call : W -> result A * W) : M W A :=
  fun w => let '(r, w1) := call w in Ran r w1 [].

Declare Scope py_scope.
Delimit Scope py_scope with py.
Notation "x <- m ;; k" := (bind m (fun x => k))
  (at level 100, m at next level, right associativity) : py_scope.
Notation "m ;;; k" := (bind m (fun _ => k))
  (at level 100, right associativity) : py_scope.
Local Open Scope py_scope.

Definition logging_info {W} (msg : string) : M W unit := emit (Log INFO msg).
Definition logging_error {W} (msg : string) : M W unit := emit (Log ERROR msg).

(** ** The program *)

(** What a Flask view returns: the dictionary given to [jsonify], alone or
    paired with a status code.  Flask answers 200 when the view gives no
    code. *)
Record response := Response {
  body : list (string * string);
  code : option nat
}.

Definition jsonify (d : list (string * string)) : list (string * string) := d.

Definition status (r : response) : nat := default 200 (code r).

(** [request.args.get(key)]: the value of the query argument, or [None]. *)
Definition args_get (args : gmap string string) (key : string) : scalar :=
  from_option SStr SNone (args !! key).

Section Program.

Context {W : Type} (svc : Services W).

(** [fetch_secret(secret_id)], lines 15-28. *)
Definition fetch_secret (secret_id : scalar) : M W string :=
  local_call (SecretManagerServiceClient svc) ;;;
  let secret_name := py_str secret_id +:+ "/versions/latest" in
  try_except
    (secret_data <- request (access_secret_version svc secret_name)
                            (AccessSecret secret_name) ;;
     logging_info ("Successfully fetched secret: " +:+ py_str secret_id) ;;;
     ret secret_data)
    (fun e =>
       logging_error ("Failed to fetch secret for key: " +:+ py_str secret_id
                        +:+ ". Error: " +:+ exn_str e) ;;;
       raise e).

(** [fetch_conf_details(bucket_name, conf_file_name)], lines 30-43. *)
Definition fetch_conf_details (bucket_name conf_file_name : string) : M W string :=
  logging_info ("Reading config file from GCS: " +:+ conf_file_name) ;;;
  lift (bucket svc bucket_name) ;;;
  try_except
    (conf_content <- request (download_as_text svc bucket_name conf_file_name)
                             (Download bucket_name conf_file_name) ;;
     logging_info ("Successfully read config file: " +:+ conf_file_name) ;;;
     ret conf_content)
    (fun e =>
       logging_error ("Failed to read config file: " +:+ conf_file_name
                        +:+ ". Error: " +:+ exn_str e) ;;;
       raise e).

(** The first [try] of [read_and_encrypt_data], lines 49-56. *)
Definition read_data (bucket_name : string) (file_path file_name : scalar) : M W string :=
  try_except
    (lift (bucket svc bucket_name) ;;;
     name <- lift (py_add file_path file_name) ;;
     data_to_encrypt <- request (download_as_text svc bucket_name name)
                                (Download bucket_name name) ;;
     logging_info ("Successfully read file: " +:+ py_str file_name
                     +:+ " from bucket: " +:+ bucket_name) ;;;
     ret data_to_encrypt)
    (fun e =>
       logging_error ("Failed to read file: " +:+ py_str file_name
                        +:+ " from bucket: " +:+ bucket_name
                        +:+ ". Error: " +:+ exn_str e) ;;;
       raise e).

(** The second [try] of [read_and_encrypt_data], lines 58-67. *)
Definition encrypt_data (data_to_encrypt gpg_public_key recipient_name : string)
  : M W Crypt :=
  try_except
    (request (import_keys svc gpg_public_key) (ImportKeys gpg_public_key) ;;;
     encrypted_data <- request (gpg_encrypt svc data_to_encrypt [recipient_name] true)
                               (Encrypt data_to_encrypt [recipient_name] true) ;;
     (if negb (ok encrypted_data)
      then raise (Exn "ValueError" ("Encryption failed: " +:+ stderr encrypted_data))
      else ret tt) ;;;
     logging_info "Encryption successful" ;;;
     ret encrypted_data)
    (fun e =>
       logging_error ("Failed to encrypt data. Error: " +:+ exn_str e) ;;;
       raise e).

(** [read_and_encrypt_data(bucket_name, file_path, file_name, gpg_public_key,
    recipient_name)], lines 45-67. *)
Definition read_and_encrypt_data (bucket_name : string) (file_path file_name : scalar)
    (gpg_public_key recipient_name : string) : M W Crypt :=
  data_to_encrypt <- read_data bucket_name file_path file_name ;;
  encrypt_data data_to_encrypt gpg_public_key recipient_name.

(** [upload_encrypted_data(bucket_name, encrypted_data, encrypted_file_path,
    file_name)], lines 69-80. *)
Definition upload_encrypted_data (bucket_name : string) (encrypted_data : Crypt)
    (encrypted_file_path file_name : scalar) : M W unit :=
  try_except
    (lift (bucket svc bucket_name) ;;;
     name <- lift (py_add encrypted_file_path file_name) ;;
     name <- lift (py_add (SStr name) (SStr ".asc")) ;;
     request (upload_from_string svc bucket_name name (data encrypted_data))
             (Upload bucket_name name (data encrypted_data)) ;;;
     logging_info "Encrypted file stored to GCS bucket successfully!")
    (fun e =>
       logging_error ("Failed to upload encrypted data to GCS. Error: " +:+ exn_str e) ;;;
       raise e).

(** Lines 90-91: the bucket and the object name taken from [conf_path]. *)
Definition parse_conf_path (conf_path : scalar) : result (string * string) :=
  match method_split conf_path "/" None with
  | Raise e => Raise e
  | Ok segments =>
      match PyStr.index segments 2 with
      | Raise e => Raise e
      | Ok bucket_name =>
          match method_split conf_path bucket_name (Some 1) with
          | Raise e => Raise e
          | Ok parts =>
              match PyStr.index parts 1 with
              | Raise e => Raise e
              | Ok rest => Ok (bucket_name, PyStr.lstrip "/" rest)
              end
          end
      end
  end.

(** The values the second [try] of the view binds, lines 97-104. *)
Record settings := Settings {
  gpg_public_key : string;
  gcs_bucket : string;
  recipient_name : string;
  file_name : scalar;
  file_path : scalar;
  encrypted_file_path : scalar
}.

(** The body of the second [try] of the view, lines 97-104. *)
Definition load_settings (bucket_name conf_file_name : string) : M W settings :=
  conf_details <- fetch_conf_details bucket_name conf_file_name ;;
  conf <- lift (loads svc conf_details) ;;
  id <- lift (getitem conf "gpg_public_key") ;;
  gpg_public_key <- fetch_secret id ;;
  id <- lift (getitem conf "gcs_bucket") ;;
  gcs_bucket <- fetch_secret id ;;
  id <- lift (getitem conf "recipient_name") ;;
  recipient_name <- fetch_secret id ;;
  file_name <- lift (getitem conf "file_name") ;;
  file_path <- lift (getitem conf "file_path") ;;
  encrypted_file_path <- lift (getitem conf "encrypted_file_path") ;;
  ret (Settings gpg_public_key gcs_bucket recipient_name
                file_name file_path encrypted_file_path).

(** A [try] whose handler returns from the view: the value the body binds,
    or the response the handler returns. *)
Definition try_or_return {A} (body : M W A) (handler : exn -> M W response)
  : M W (response + A) :=
  try_except (a <- body ;; ret (inr a)) (fun e => resp <- handler e ;; ret (inl resp)).

(** The statements after such a [try] run only when it did not return. *)
Definition and_then {A} (m : M W (response + A)) (k : A -> M W response) : M W response :=
  r <- m ;;
  match r with
  | inl resp => ret resp
  | inr a => k a
  end.

(** [encrypt()], lines 82-121, on the query arguments of the request. *)
Definition encrypt (args : gmap string string) : M W response :=
  let conf_path := args_get args "conf_path" in
  and_then
    (try_or_return
       (logging_info ("Reading config file from path: " +:+ py_str conf_path) ;;;
        lift (parse_conf_path conf_path))
       (fun e =>
          logging_error ("Invalid configuration path: " +:+ py_str conf_path
                           +:+ ". Error: " +:+ exn_str e) ;;;
          ret (Response (jsonify [("error", "Invalid configuration path: " +:+ exn_str e)])
                        (Some 400))))
    (fun '(bucket_name, conf_file_name) =>
  and_then
    (try_or_return
       (load_settings bucket_name conf_file_name)
       (fun e =>
          logging_error ("Failed to fetch configuration or secrets. Error: " +:+ exn_str e) ;;;
          ret (Response (jsonify [("error", "Failed to fetch configuration or secrets: "
                                              +:+ exn_str e)])
                        (Some 500))))
    (fun cfg =>
  and_then
    (try_or_return
       (read_and_encrypt_data (gcs_bucket cfg) (file_path cfg) (file_name cfg)
          (gpg_public_key cfg) (recipient_name cfg))
       (fun e =>
          logging_error ("Failed during encryption. Error: " +:+ exn_str e) ;;;
          ret (Response (jsonify [("error", "Encryption failed: " +:+ exn_str e)])
                        (Some 500))))
    (fun encrypted_data =>
  and_then
    (try_or_return
       (upload_encrypted_data (gcs_bucket cfg) encrypted_data
          (encrypted_file_path cfg) (file_name cfg))
       (fun e =>
          logging_error ("Failed to store encrypted file. Error: " +:+ exn_str e) ;;;
          ret (Response (jsonify [("error", "Failed to store encrypted file: " +:+ exn_str e)])
                        (Some 500))))
    (fun _ =>
  ret (Response (jsonify [("message", "Success, file was encrypted and stored in GCS.")])
                None))))).

End Program.

(** ** Reading a trace *)

(** The requests of a trace: its events without the log records. *)
Definition is_call (ev : event) : bool :=
  match ev with
  | Log _ _ => false
  | _ => true
  end.

Fixpoint calls (t : list event) : list event :=
  match t with
  | [] => []
  | ev :: t' => if is_call ev then ev :: calls t' else calls t'
  end.

Definition is_secret_call (ev : event) : bool :=
  match ev with
  | AccessSecret _ _ => true
  | _ => false
  end.

Fixpoint secret_calls (t : list event) : list event :=
  match t with
  | [] => []
  | ev :: t' => if is_secret_call ev then ev :: secret_calls t' else secret_calls t'
  end.

Definition is_upload (ev : event) : bool :=
  match ev with
  | Upload _ _ _ _ => true
  | _ => false
  end.

Fixpoint uploads (t : list event) : list event :=
  match t with
  | [] => []
  | ev :: t' => if is_upload ev then ev :: uploads t' else uploads t'
  end.

(** A request that did what was asked: it returned normally and, for the
    encryption, the engine's success flag is set. *)
Definition succeeded (ev : event) : bool :=
  match ev with
  | Log _ _ => true
  | AccessSecret _ r => is_ok r
  | Download _ _ r => is_ok r
  | Upload _ _ _ r => is_ok r
  | ImportKeys _ r => is_ok r
  | Encrypt _ _ _ r => match r with Ok c => ok c | Raise _ => false end
  end.

(** An object is persisted by an upload that returned normally: the write
    of the blob store is of a whole object. *)
Definition persisted (ev : event) : bool := is_upload ev && succeeded ev.

Inductive call_kind : Type :=
| KLog | KSecret | KDownload | KUpload | KImportKeys | KEncrypt.

Definition kind_of (ev : event) : call_kind :=
  match ev with
  | Log _ _ => KLog
  | AccessSecret _ _ => KSecret
  | Download _ _ _ => KDownload
  | Upload _ _ _ _ => KUpload
  | ImportKeys _ _ => KImportKeys
  | Encrypt _ _ _ _ => KEncrypt
  end.

(** The requests that come before the write, in the order of the view. *)
Definition before_write : list call_kind :=
  [KDownload; KSecret; KSecret; KSecret; KDownload; KImportKeys; KEncrypt].

(** ** The state machine of the design

    The orchestrator as the specification describes it (section 4.5): the
    stages in their fixed order, the first failure ending the run.  It is
    written from the specification's words over the stage functions above,
    to be compared with [encrypt]. *)

Inductive stage : Type :=
| ParsingPath | LoadingConfig | Reading | Encrypting | Writing.

Inductive outcome : Type :=
| Done
| Failed (s : stage) (e : exn).

Section StateMachine.

Context {W : Type} (svc : Services W).

Definition conf_path_of (args : gmap string string) : scalar :=
  args_get args "conf_path".

(** What the view logs before the first stage. *)
Definition entering (args : gmap string string) : event :=
  Log INFO ("Reading config file from path: " +:+ py_str (conf_path_of args)).

(** The terminal state, the world at the end and the events of the run. *)
Definition run_stages (args : gmap string string) (w : W) : outcome * W * list event :=
  match parse_conf_path (conf_path_of args) with
  | Raise e => (Failed ParsingPath e, w, [entering args])
  | Ok (bucket_name, conf_file_name) =>
      match load_settings svc bucket_name conf_file_name w with
      | Ran (Raise e) w1 evs1 => (Failed LoadingConfig e, w1, entering args :: evs1)
      | Ran (Ok cfg) w1 evs1 =>
          match read_data svc (gcs_bucket cfg) (file_path cfg) (file_name cfg) w1 with
          | Ran (Raise e) w2 evs2 => (Failed Reading e, w2, entering args :: evs1 ++ evs2)
          | Ran (Ok plaintext) w2 evs2 =>
              match encrypt_data svc plaintext (gpg_public_key cfg) (recipient_name cfg) w2 with
              | Ran (Raise e) w3 evs3 =>
                  (Failed Encrypting e, w3, entering args :: evs1 ++ evs2 ++ evs3)
              | Ran (Ok encrypted) w3 evs3 =>
                  match upload_encrypted_data svc (gcs_bucket cfg) encrypted
                          (encrypted_file_path cfg) (file_name cfg) w3 with
                  | Ran (Raise e) w4 evs4 =>
                      (Failed Writing e, w4, entering args :: evs1 ++ evs2 ++ evs3 ++ evs4)
                  | Ran (Ok _) w4 evs4 =>
                      (Done, w4, entering args :: evs1 ++ evs2 ++ evs3 ++ evs4)
                  end
              end
          end
      end
  end.

(** The text each handler of the view puts before [str(e)] in the body of
    its response, lines 94, 107, 113 and 119. *)
Definition error_prefix (s : stage) : string :=
  match s with
  | ParsingPath => "Invalid configuration path: "
  | LoadingConfig => "Failed to fetch configuration or secrets: "
  | Reading | Encrypting => "Encryption failed: "
  | Writing => "Failed to store encrypted file: "
  end.

(** The response outcome of each terminal state (section 6). *)
Definition status_of (o : outcome) : nat :=
  match o with
  | Done => 200
  | Failed ParsingPath _ => 400
  | Failed _ _ => 500
  end.

End StateMachine.

(** What a run that ends in [Done] has done, as its requests show it: the
    configuration object read at the parsed place, the three secrets
    resolved from its fields, the source read, the key imported, the text
    encrypted, the result written. *)
Inductive completes {W} (svc : Services W) (args : gmap string string)
    (evs : list event) : Prop :=
| Completes (p b n text : string) (d : gmap string scalar) (k1 k2 k3 : scalar)
    (fn fp efp v1 v2 v3 plain : string) (ir : ImportResult) (c : Crypt) :
    args !! "conf_path" = Some p ->
    parse_conf_path (SStr p) = Ok (b, n) ->
    loads svc text = Ok (Dict d) ->
    d !! "gpg_public_key" = Some k1 ->
    d !! "gcs_bucket" = Some k2 ->
    d !! "recipient_name" = Some k3 ->
    d !! "file_name" = Some (SStr fn) ->
    d !! "file_path" = Some (SStr fp) ->
    d !! "encrypted_file_path" = Some (SStr efp) ->
    ok c = true ->
    calls evs =
      [ Download b n (Ok text);
        AccessSecret (py_str k1 +:+ "/versions/latest") (Ok v1);
        AccessSecret (py_str k2 +:+ "/versions/latest") (Ok v2);
        AccessSecret (py_str k3 +:+ "/versions/latest") (Ok v3);
        Download v2 (fp +:+ fn) (Ok plain);
        ImportKeys v1 (Ok ir);
        Encrypt plain [v3] true (Ok c);
        Upload v2 ((efp +:+ fn) +:+ ".asc") (data c) (Ok tt) ] ->
    completes svc args evs.

(** ** The encryption engine as the stage sees it *)

Section Engine.

Context {W : Type} (svc : Services W).

(** One of the two requests of the stage raised [e]. *)
Definition engine_raises (plaintext key_data recipient : string) (w : W) (e : exn) : Prop :=
  (exists w1, import_keys svc key_data w = (Raise e, w1)) \/
  (exists ir w1 w2,
     import_keys svc key_data w = (Ok ir, w1) /\
     gpg_encrypt svc plaintext [recipient] true w1 = (Raise e, w2)).

(** Both requests returned and the result [c] of the encryption has its
    success flag unset. *)
Definition engine_reports_failure (plaintext key_data recipient : string) (w : W)
    (c : Crypt) : Prop :=
  exists ir w1 w2,
    import_keys svc key_data w = (Ok ir, w1) /\
    gpg_encrypt svc plaintext [recipient] true w1 = (Ok c, w2) /\
    ok c = false.

End Engine.

(** The six fields the view reads from the configuration object, lines
    99-104. *)
Definition required_fields : list string :=
  [ "gpg_public_key"; "gcs_bucket"; "recipient_name";
    "file_name"; "file_path"; "encrypted_file_path" ].

(** ** A world to run the program in

    A blob store, a secret store and a keyring, with services that behave
    as the real ones are documented to: a missing object or secret raises,
    an upload stores the whole object, the keyring keeps what was imported,
    and the engine reports (it does not raise) when it has no key for a
    recipient.  Key material is the text [KEY:] followed by the owner's
    name.  [json.loads] is a table from the texts of the scenario to their
    values. *)
Module Sim.

Record world := World {
  blobs : gmap (string * string) string;
  secrets : gmap string string;
  keyring : list string
}.

Definition access (name : string) (w : world) : result string * world :=
  match secrets w !! name with
  | Some v => (Ok v, w)
  | None => (Raise (Exn "NotFound" ("404 Secret Version [" +:+ name +:+ "] not found.")), w)
  end.

Definition download (bucket_name name : string) (w : world) : result string * world :=
  match blobs w !! (bucket_name, name) with
  | Some text => (Ok text, w)
  | None => (Raise (Exn "NotFound" ("404 No such object: " +:+ bucket_name +:+ "/" +:+ name)), w)
  end.

Definition upload (bucket_name name payload : string) (w : world) : result unit * world :=
  (Ok tt, World (<[(bucket_name, name) := payload]> (blobs w)) (secrets w) (keyring w)).

Definition key_owner (key_data : string) : option string :=
  if PyStr.starts_with "KEY:" key_data
  then Some (substring 4 (String.length key_data - 4) key_data)
  else None.

Definition import (key_data : string) (w : world) : result ImportResult * world :=
  match key_owner key_data with
  | Some owner => (Ok {| count := 1 |}, World (blobs w) (secrets w) (owner :: keyring w))
  | None => (Ok {| count := 0 |}, w)
  end.

Definition has_key (w : world) (recipient : string) : bool :=
  bool_decide (recipient ∈ keyring w).

Definition encrypt_for (plaintext : string) (recipients : list string) (always_trust : bool)
    (w : world) : result Crypt * world :=
  if forallb (has_key w) recipients
  then (Ok {| ok := true; stderr := ""; data := "PGP<" +:+ plaintext +:+ ">" |}, w)
  else (Ok {| ok := false; stderr := "gpg: skipped: No public key"; data := "" |}, w).

Definition parse (docs : gmap string pyval) (text : string) : result pyval :=
  match docs !! text with
  | Some v => Ok v
  | None => Raise (Exn "JSONDecodeError" "Expecting value: line 1 column 1 (char 0)")
  end.

Definition services (docs : gmap string pyval) : Services world := {|
  SecretManagerServiceClient := fun w => (Ok tt, w);
  access_secret_version := access;
  bucket := fun _ => Ok tt;
  download_as_text := download;
  upload_from_string := upload;
  import_keys := import;
  gpg_encrypt := encrypt_for;
  loads := parse docs
|}.

(** The scenario of the specification (section 8). *)
Definition conf : gmap string scalar :=
  {[ "gpg_public_key" := SStr "projects/p/secrets/key";
     "gcs_bucket" := SStr "projects/p/secrets/bucket";
     "recipient_name" := SStr "projects/p/secrets/recipient";
     "file_name" := SStr "report.csv";
     "file_path" := SStr "in/";
     "encrypted_file_path" := SStr "out/" ]}.

Definition conf_text : string := "<text of app/conf.json>".

Definition docs : gmap string pyval := {[ conf_text := Dict conf ]}.

Definition vault : gmap string string :=
  {[ "projects/p/secrets/key/versions/latest" := "KEY:alice";
     "projects/p/secrets/bucket/versions/latest" := "data-bucket";
     "projects/p/secrets/recipient/versions/latest" := "alice" ]}.

Definition store : gmap (string * string) string :=
  {[ ("cfgbucket", "app/conf.json") := conf_text;
     ("data-bucket", "in/report.csv") := "a,b,c" ]}.

Definition w0 : world := World store vault [].

Definition args : gmap string string := {[ "conf_path" := "gs://cfgbucket/app/conf.json" ]}.

Definition svc : Services world := services docs.

(** The same world without the source object. *)
Definition w_no_source : world :=
  World {[ ("cfgbucket", "app/conf.json") := conf_text ]} vault [].

(** A configuration object whose [encrypted_file_path] is [null], and one
    without [file_name]. *)
Definition conf_null : gmap string scalar := <["encrypted_file_path" := SNone]> conf.

Definition conf_short : gmap string scalar := delete "file_name" conf.

Definition svc_null : Services world := services {[ conf_text := Dict conf_null ]}.

Definition svc_short : Services world := services {[ conf_text := Dict conf_short ]}.

(** A keyring that already holds the recipient's key, as an earlier
    invocation left it. *)
Definition w_keyed : world := World store vault ["alice"].

(** The recipient secret names someone whose key is not in the material. *)
Definition w_stranger : world :=
  World store (<["projects/p/secrets/recipient/versions/latest" := "bob"]> vault) [].

(** The same services over a store that refuses every write. *)
Definition svc_read_only : Services world := {|
  SecretManagerServiceClient := fun w => (Ok tt, w);
  access_secret_version := access;
  bucket := fun _ => Ok tt;
  download_as_text := download;
  upload_from_string := fun _ _ _ w =>
    (Raise (Exn "Forbidden" "403 caller does not have storage.objects.create access"), w);
  import_keys := import;
  gpg_encrypt := encrypt_for;
  loads := parse docs
|}.

(** The values the scenario binds from its configuration object. *)
Definition cfg : settings :=
  Settings "KEY:alice" "data-bucket" "alice" (SStr "report.csv") (SStr "in/") (SStr "out/").

End Sim.

(** ** Reading the log *)

(** The log records of a trace, in order. *)
Fixpoint logs (t : list event) : list (level * string) :=
  match t with
  | [] => []
  | Log lvl msg :: t' => (lvl, msg) :: logs t'
  | _ :: t' => logs t'
  end.

Definition is_error_log (ev : event) : bool :=
  match ev with
  | Log ERROR _ => true
  | _ => false
  end.

Fixpoint error_logs (t : list event) : list event :=
  match t with
  | [] => []
  | ev :: t' => if is_error_log ev then ev :: error_logs t' else error_logs t'
  end.

(** What the handler of each [try] of the view logs, lines 93, 106, 112
    and 118. *)
Definition handler_log (args : gmap string string) (s : stage) (e : exn) : string :=
  match s with
  | ParsingPath =>
      "Invalid configuration path: " +:+ py_str (args_get args "conf_path")
        +:+ ". Error: " +:+ exn_str e
  | LoadingConfig => "Failed to fetch configuration or secrets. Error: " +:+ exn_str e
  | Reading | Encrypting => "Failed during encryption. Error: " +:+ exn_str e
  | Writing => "Failed to store encrypted file. Error: " +:+ exn_str e
  end.

(** An encryption request as line 60 makes it: for one recipient, with
    [always_trust=True].  Every other event passes. *)
Definition one_trusted_recipient (ev : event) : bool :=
  match ev with
  | Encrypt _ [_] true _ => true
  | Encrypt _ _ _ _ => false
  | _ => true
  end.

(** The fields the view uses as they are, lines 102-104. *)
Definition file_fields : list string :=
  [ "file_name"; "file_path"; "encrypted_file_path" ].

(** The first of [keys] that the object does not hold. *)
Fixpoint first_missing (d : gmap string scalar) (keys : list string) : option string :=
  match keys with
  | [] => None
  | key :: keys' =>
      match d !! key with
      | None => Some key
      | Some _ => first_missing d keys'
      end
  end.

(** ** Requests and the services

    An event records a request with its answer.  What follows reads an
    event against the services themselves: the request was put to the
    service in the world [w], the service gave the recorded answer and
    left the world [w'].  A storage request goes through a bucket handle,
    a secret request through a client created just before it. *)
Definition answered {W} (svc : Services W) (ev : event) (w w' : W) : Prop :=
  match ev with
  | Log _ _ => w' = w
  | AccessSecret name r =>
      exists w0,
        SecretManagerServiceClient svc w = (Ok tt, w0) /\
        access_secret_version svc name w0 = (r, w')
  | Download bucket_name blob_name r =>
      bucket svc bucket_name = Ok tt /\
      download_as_text svc bucket_name blob_name w = (r, w')
  | Upload bucket_name blob_name payload r =>
      bucket svc bucket_name = Ok tt /\
      upload_from_string svc bucket_name blob_name payload w = (r, w')
  | ImportKeys key_data r => import_keys svc key_data w = (r, w')
  | Encrypt plaintext recipients always_trust r =>
      gpg_encrypt svc plaintext recipients always_trust w = (r, w')
  end.

(** The requests of [t] were put to the services one after the other, each
    in the world the one before it left, from [w] to [w']. *)
Fixpoint replays {W} (svc : Services W) (t : list event) (w w' : W) : Prop :=
  match t with
  | [] => w' = w
  | ev :: t' => exists w1, answered svc ev w w1 /\ replays svc t' w1 w'
  end.


(** The same services with an engine that encrypts as before for one
    recipient with [always_trust=True], and as [other] for every other
    request. *)
Definition with_other_encryptions {W} (svc : Services W)
    (other : string -> list string -> bool -> W -> result Crypt * W) : Services W := {|
  SecretManagerServiceClient := SecretManagerServiceClient svc;
  access_secret_version := access_secret_version svc;
  bucket := bucket svc;
  download_as_text := download_as_text svc;
  upload_from_string := upload_from_string svc;
  import_keys := import_keys svc;
  gpg_encrypt := fun plaintext recipients always_trust =>
    match recipients, always_trust with
    | [_], true => gpg_encrypt svc plaintext recipients always_trust
    | _, _ => other plaintext recipients always_trust
    end;
  loads := loads svc
|}.

(** * Properties *)

(** ** Running the program symbolically *)

Ltac innermost x :=
  lazymatch x with
  | context [match ?y with _ => _ end] => innermost y
  | _ => x
  end.

Ltac reduce :=
  cbn beta iota zeta delta
    [value after events app gpg_public_key gcs_bucket recipient_name
       file_name file_path encrypted_file_path] in *.

(** Case analysis on the value the next [match] of the goal waits for. *)
Ltac run_step :=
  match goal with
  | |- context [match ?x with _ => _ end] =>
      let y := innermost x in destruct y eqn:?
  end;
  reduce.

(** Lists of events to their right-nested form. *)
Ltac norm_list :=
  rewrite ?app_nil_r; rewrite <- ?app_assoc; cbn [app].

(** Evaluating the readers of a trace on a list of events that is known. *)
Ltac read_trace :=
  cbn [calls is_call secret_calls is_secret_call uploads is_upload
       map kind_of removelast forallb existsb succeeded persisted is_ok
       length app andb orb negb] in *.

Ltac unfold_monad :=
  unfold and_then, try_or_return, try_except, request, local_call, lift,
    logging_info, logging_error, emit, bind, ret, raise in *;
  reduce.

Ltac unfold_view :=
  unfold encrypt, read_and_encrypt_data in *; unfold_monad.

Ltac unfold_stages :=
  unfold load_settings, fetch_conf_details, fetch_secret, read_data, encrypt_data,
    upload_encrypted_data in *; unfold_monad.

Section Refinement.

Context {W : Type} (svc : Services W).

(** The view is the state machine: it answers what the terminal state of
    the stages calls for, after logging the failure if there is one. *)
Lemma encrypt_outcome (args : gmap string string) (w : W) :
  exists resp w' evs,
    encrypt svc args w = Ran (Ok resp) w' evs /\
    match run_stages svc args w with
    | (Done, w1, evs1) =>
        resp = Response [("message", "Success, file was encrypted and stored in GCS.")] None
        /\ w' = w1 /\ evs = evs1
    | (Failed s e, w1, evs1) =>
        resp = Response [("error", error_prefix s +:+ exn_str e)]
                        (Some (status_of (Failed s e)))
        /\ w' = w1
        /\ exists msg, evs = evs1 ++ [Log ERROR msg]
    end.
Proof.
  unfold run_stages, entering, conf_path_of. unfold_view.
  repeat run_step; do 3 eexists; (split; [reflexivity|]);
    cbn [error_prefix status_of]; repeat split; try eexists; norm_list; reflexivity.
Qed.

End Refinement.

(** ** Values *)

Lemma getitem_ok (conf : pyval) (key : string) (v : scalar) :
  getitem conf key = Ok v -> exists d, conf = Dict d /\ d !! key = Some v.
Proof.
  destruct conf as [[|s]|d]; cbn; try discriminate.
  destruct (d !! key) eqn:E; intros; simplify_eq. eauto.
Qed.

Lemma py_add_ok (a b : scalar) (s : string) :
  py_add a b = Ok s -> exists x y, a = SStr x /\ b = SStr y /\ s = x +:+ y.
Proof.
  destruct a, b; cbn; intros; simplify_eq. eauto.
Qed.

Lemma parse_conf_path_str (conf_path : scalar) (r : string * string) :
  parse_conf_path conf_path = Ok r -> exists p, conf_path = SStr p.
Proof.
  destruct conf_path; cbn; [discriminate | eauto].
Qed.

Lemma args_get_str (args : gmap string string) (key p : string) :
  args_get args key = SStr p -> args !! key = Some p.
Proof.
  unfold args_get. destruct (args !! key); cbn; intros; simplify_eq. reflexivity.
Qed.

(** ** The requests of a run *)

Section Shape.

Context {W : Type} (svc : Services W).

(** A run that ends in [Done] made exactly the eight requests of the
    pipeline, each with the values the earlier ones returned. *)
Lemma run_stages_done (args : gmap string string) (w w1 : W) (evs : list event) :
  run_stages svc args w = (Done, w1, evs) -> completes svc args evs.
Proof.
  unfold run_stages, entering, conf_path_of. unfold_stages.
  repeat run_step; intros; simplify_eq.
  repeat match goal with
         | H : getitem _ _ = Ok _ |- _ =>
             apply getitem_ok in H; destruct H as (? & ? & H); simplify_eq
         | H : py_add _ _ = Ok _ |- _ =>
             apply py_add_ok in H; destruct H as (? & ? & ? & ? & H); simplify_eq
         | H : negb _ = false |- _ => rewrite negb_false_iff in H
         | u : unit |- _ => destruct u
         end.
  match goal with
  | H : parse_conf_path _ = Ok _ |- _ =>
      destruct (parse_conf_path_str _ _ H) as [p Hp]; rewrite Hp in H;
      apply args_get_str in Hp
  end.
  econstructor; try eassumption.
  norm_list. cbn. reflexivity.
Qed.

(** Whatever the services answer, the requests of a run are a beginning of
    the fixed sequence, each made only after the one before it succeeded;
    the secrets are asked for at most three times and never again after a
    failure; and the write is requested last, if at all. *)
Lemma run_stages_shape (args : gmap string string) (w w1 : W) (o : outcome)
    (evs : list event) :
  run_stages svc args w = (o, w1, evs) ->
  map kind_of (calls evs) `prefix_of` (before_write ++ [KUpload]) /\
  forallb succeeded (removelast (calls evs)) = true /\
  length (secret_calls evs) <= 3 /\
  forallb succeeded (removelast (secret_calls evs)) = true /\
  match o with
  | Done =>
      exists pre up,
        calls evs = pre ++ [up] /\ uploads evs = [up] /\ succeeded up = true /\
        map kind_of pre = before_write /\ forallb succeeded pre = true
  | Failed ParsingPath _ => calls evs = [] /\ w1 = w
  | Failed Writing _ =>
      existsb persisted evs = false /\
      (uploads evs = [] \/
       exists pre up,
         calls evs = pre ++ [up] /\ uploads evs = [up] /\ succeeded up = false /\
         map kind_of pre = before_write /\ forallb succeeded pre = true)
  | Failed _ _ => uploads evs = []
  end.
Proof.
  unfold run_stages, entering, conf_path_of. unfold_stages.
  repeat run_step; intros; simplify_eq; norm_list;
    rewrite ?negb_true_iff, ?negb_false_iff in *; read_trace.
  all: repeat match goal with H : ok _ = _ |- _ => rewrite H end.
  all: repeat split; try reflexivity; try lia; try (by eexists).
  all: try (left; reflexivity); try right.
  all: eexists (cons _ (cons _ (cons _ (cons _ (cons _ (cons _ (cons _ nil))))))), _;
    repeat split; read_trace;
    repeat match goal with H : ok _ = _ |- _ => rewrite H end; reflexivity.
Qed.

End Shape.

(** ** Python strings *)

Example split_slash :
  PyStr.split "/" None "gs://cfgbucket/app/conf.json"
  = Ok ["gs:"; ""; "cfgbucket"; "app"; "conf.json"].
Proof. reflexivity. Qed.

Example split_once :
  PyStr.split "cfgbucket" (Some 1) "gs://cfgbucket/app/cfgbucket.json"
  = Ok ["gs://"; "/app/cfgbucket.json"].
Proof. reflexivity. Qed.

Example split_trailing : PyStr.split "/" None "a/" = Ok ["a"; ""].
Proof. reflexivity. Qed.

Example split_overlap : PyStr.split "aa" None "aaa" = Ok [""; "a"].
Proof. reflexivity. Qed.

Example split_of_empty : PyStr.split "/" None "" = Ok [""].
Proof. reflexivity. Qed.

Example lstrip_all : PyStr.lstrip "/" "//a/b" = "a/b".
Proof. reflexivity. Qed.

Example add_none_left :
  py_add SNone (SStr "report.csv")
  = Raise (Exn "TypeError" "unsupported operand type(s) for +: 'NoneType' and 'str'").
Proof. reflexivity. Qed.

Example add_none_right :
  py_add (SStr "in/") SNone
  = Raise (Exn "TypeError"
             ("can only concatenate str (not " +:+ PyStr.dquote +:+ "NoneType"
                +:+ PyStr.dquote +:+ ") to str")).
Proof. reflexivity. Qed.

Example key_error : getitem (Dict ∅) "file_name" = Raise (Exn "KeyError" "'file_name'").
Proof. reflexivity. Qed.

Example parse_scenario :
  parse_conf_path (SStr "gs://cfgbucket/app/conf.json") = Ok ("cfgbucket", "app/conf.json").
Proof. reflexivity. Qed.

Example parse_no_container :
  parse_conf_path (SStr "gs:///app/conf.json") = Raise (Exn "ValueError" "empty separator").
Proof. reflexivity. Qed.

Section Splitting.

(** Inside this section [+:+] unfolds on a text that starts with a known
    character. *)
#[local] Arguments String.append !s1 s2 : simpl nomatch.

Lemma string_app_assoc (a b c : string) : (a +:+ b) +:+ c = a +:+ b +:+ c.
Proof.
  induction a as [|x a IH]; simpl; [reflexivity | f_equal; exact IH].
Qed.

Lemma starts_with_app (p s : string) : PyStr.starts_with p (p +:+ s) = true.
Proof.
  induction p as [|a p IH]; cbn; [reflexivity|].
  rewrite Ascii.eqb_refl. exact IH.
Qed.

Lemma starts_with_drop (p s : string) :
  PyStr.starts_with p s = true -> s = p +:+ PyStr.drop (String.length p) s.
Proof.
  revert s. induction p as [|a p IH]; intros s H; cbn; [reflexivity|].
  destruct s as [|b s]; cbn in H; [discriminate|].
  destruct (Ascii.eqb_spec a b) as [->|]; [|discriminate].
  cbn. rewrite <- (IH s H). reflexivity.
Qed.

(** Without cuts left, the scan returns the text as one piece. *)
Lemma split_go_no_cut (sep s : string) : PyStr.split_go sep s 0 (Some 0) = (s, []).
Proof.
  induction s as [|c s IH]; cbn; [reflexivity|].
  rewrite IH. reflexivity.
Qed.

(** Passing over the rest of a separator. *)
Lemma split_go_skip (sep x s : string) (left : option nat) :
  PyStr.split_go sep (x +:+ s) (String.length x) left = PyStr.split_go sep s 0 left.
Proof.
  induction x as [|c x IH]; cbn; [|exact IH].
  destruct s; reflexivity.
Qed.

(** The pieces of a split, joined with the separator, are the text: the
    scan loses nothing and invents nothing. *)
Lemma split_go_join (sep s : string) (skip : nat) (left : option nat) :
  sep <> "" ->
  let '(p, ps) := PyStr.split_go sep s skip left in
  PyStr.join sep (p :: ps) = PyStr.drop skip s.
Proof.
  intros Hsep. revert skip left.
  induction s as [|c s IH]; intros skip left; cbn.
  - destruct skip; reflexivity.
  - destruct skip as [|k].
    + destruct (PyStr.may_split left && PyStr.starts_with sep (String c s)) eqn:Hcut.
      * apply andb_true_iff in Hcut as [_ Hpre].
        specialize (IH (pred (String.length sep)) (PyStr.one_less left)).
        destruct (PyStr.split_go sep s (pred (String.length sep)) (PyStr.one_less left))
          as [p ps].
        change (PyStr.join sep ("" :: p :: ps)) with (sep +:+ PyStr.join sep (p :: ps)).
        rewrite IH. change (PyStr.drop 0 (String c s)) with (String c s).
        rewrite (starts_with_drop _ _ Hpre) at 1.
        destruct sep as [|a sep]; [congruence|]. reflexivity.
      * specialize (IH 0 left).
        destruct (PyStr.split_go sep s 0 left) as [p ps].
        cbn in IH. destruct ps; cbn in *; rewrite <- IH; reflexivity.
    + apply IH.
Qed.

Lemma split_join (sep s : string) (maxsplit : option nat) (pieces : list string) :
  PyStr.split sep maxsplit s = Ok pieces -> PyStr.join sep pieces = s.
Proof.
  unfold PyStr.split. destruct sep as [|a sep]; [discriminate|].
  pose proof (split_go_join (String a sep) s 0 maxsplit) as H.
  destruct (PyStr.split_go (String a sep) s 0 maxsplit) as [p ps].
  intros Heq. simplify_eq. apply H. discriminate.
Qed.

(** Splitting on [/]: a text without a slash before the first slash is the
    first piece. *)
Lemma split_go_slash (x rest : string) :
  PyStr.contains_char "/" x = false ->
  PyStr.split_go "/" (x +:+ String "/" rest) 0 None
  = let '(p, ps) := PyStr.split_go "/" rest 0 None in (x, p :: ps).
Proof.
  induction x as [|c x IH]; intros Hx.
  - cbn. destruct rest; reflexivity.
  - cbn in Hx. apply orb_false_iff in Hx as [Hc Hx].
    cbn. rewrite Hc. rewrite (IH Hx).
    destruct (PyStr.split_go "/" rest 0 None). reflexivity.
Qed.

(** Splitting once on a separator whose first occurrence ends the part
    [pre] of the text. *)
Lemma split_go_once (sep pre post : string) :
  sep <> "" ->
  PyStr.absent_before sep pre (sep +:+ post) = true ->
  PyStr.split_go sep (pre +:+ sep +:+ post) 0 (Some 1) = (pre, [post]).
Proof.
  intros Hsep. induction pre as [|c pre IH]; intros Habs.
  - destruct sep as [|a sep]; [congruence|].
    cbn. rewrite Ascii.eqb_refl, starts_with_app.
    rewrite split_go_skip, split_go_no_cut. reflexivity.
  - cbn in Habs. apply andb_true_iff in Habs as [Hno Habs].
    apply negb_true_iff in Hno.
    cbn -[PyStr.starts_with]. cbn -[PyStr.starts_with] in Hno. rewrite Hno.
    rewrite (IH Habs). reflexivity.
Qed.

Lemma contains_char_app (c : ascii) (a b : string) :
  PyStr.contains_char c (a +:+ b) = PyStr.contains_char c a || PyStr.contains_char c b.
Proof.
  induction a as [|x a IH]; simpl; [reflexivity|].
  rewrite IH, orb_assoc. reflexivity.
Qed.

(** What lines 90-91 give on a path [scheme://container/key] whose scheme
    and container hold no slash: the container and the key, provided the
    container is not empty and its name occurs nowhere in the path before
    its own segment. *)
Lemma parse_conf_path_first_occurrence (scheme container key : string) :
  PyStr.contains_char "/" scheme = false ->
  PyStr.contains_char "/" container = false ->
  container <> "" ->
  PyStr.absent_before container (scheme +:+ "://") (container +:+ "/" +:+ key) = true ->
  parse_conf_path (SStr (scheme +:+ "://" +:+ container +:+ "/" +:+ key))
  = Ok (container, PyStr.lstrip "/" key).
Proof.
  intros Hscheme Hcontainer Hne Habsent.
  unfold parse_conf_path, method_split.
  assert (Hsegments :
            PyStr.split "/" None (scheme +:+ "://" +:+ container +:+ "/" +:+ key)
            = let '(p, ps) := PyStr.split_go "/" key 0 None in
              Ok ((scheme +:+ ":") :: "" :: container :: p :: ps)).
  { unfold PyStr.split.
    replace (scheme +:+ "://" +:+ container +:+ "/" +:+ key)
      with ((scheme +:+ ":") +:+ String "/" ("" +:+ String "/" (container +:+ String "/" key)))
      by (rewrite string_app_assoc; reflexivity).
    rewrite split_go_slash
      by (rewrite contains_char_app, Hscheme; reflexivity).
    rewrite split_go_slash by reflexivity.
    rewrite split_go_slash by assumption.
    destruct (PyStr.split_go "/" key 0 None). reflexivity. }
  rewrite Hsegments. destruct (PyStr.split_go "/" key 0 None) as [p ps].
  cbn [PyStr.index lookup list_lookup].
  unfold PyStr.split. destruct container as [|a container]; [congruence|].
  replace (scheme +:+ "://" +:+ String a container +:+ "/" +:+ key)
    with ((scheme +:+ "://") +:+ String a container +:+ "/" +:+ key)
    by (rewrite string_app_assoc; reflexivity).
  rewrite split_go_once by (assumption || discriminate).
  reflexivity.
Qed.

(** A text without a slash that starts a text does so before the first
    slash of that text. *)
Lemma starts_with_before_slash (c u v : string) :
  PyStr.contains_char "/" c = false ->
  PyStr.starts_with c (u +:+ String "/" v) = true ->
  PyStr.starts_with c u = true.
Proof.
  revert u. induction c as [|a c IH]; intros u Hc H; [reflexivity|].
  cbn [PyStr.contains_char] in Hc. apply orb_false_iff in Hc as [Ha Hc].
  destruct u as [|b u]; cbn [PyStr.starts_with String.append] in *.
  - rewrite Ascii.eqb_sym, Ha in H. discriminate.
  - destruct (Ascii.eqb a b); [|discriminate]. apply IH; assumption.
Qed.

Lemma starts_with_empty (c : string) : PyStr.starts_with c "" = true -> c = "".
Proof. destruct c; [reflexivity | discriminate]. Qed.

Lemma occurs_false (sub s : string) :
  PyStr.occurs sub s = false ->
  PyStr.starts_with sub s = false /\
  match s with
  | "" => True
  | String _ s' => PyStr.occurs sub s' = false
  end.
Proof.
  destruct s; simpl; intros H; apply orb_false_iff in H as [H1 H2]; auto.
Qed.

(** A name without a slash that does not occur in [scheme:] matches nowhere
    in [scheme://]. *)
Lemma absent_before_scheme (scheme container rest : string) :
  PyStr.contains_char "/" container = false ->
  container <> "" ->
  PyStr.occurs container (scheme +:+ ":") = false ->
  PyStr.absent_before container (scheme +:+ "://") rest = true.
Proof.
  intros Hc Hne. induction scheme as [|x scheme IH]; intros Hocc.
  - simpl in Hocc. apply orb_false_iff in Hocc as [Hcolon _].
    simpl. repeat (apply andb_true_iff; split); try reflexivity; apply negb_true_iff.
    + destruct (PyStr.starts_with container (String ":" (String "/" (String "/" rest))))
        eqn:E; [|reflexivity].
      apply (starts_with_before_slash container ":" (String "/" rest) Hc) in E. congruence.
    + destruct (PyStr.starts_with container (String "/" (String "/" rest))) eqn:E;
        [|reflexivity].
      apply (starts_with_before_slash container "" (String "/" rest) Hc) in E.
      apply starts_with_empty in E. congruence.
    + destruct (PyStr.starts_with container (String "/" rest)) eqn:E; [|reflexivity].
      apply (starts_with_before_slash container "" rest Hc) in E.
      apply starts_with_empty in E. congruence.
  - apply occurs_false in Hocc as [Hhere Hlater].
    change (PyStr.absent_before container (String x scheme +:+ "://") rest)
      with (negb (PyStr.starts_with container ((String x scheme +:+ "://") +:+ rest))
            && PyStr.absent_before container (scheme +:+ "://") rest).
    rewrite (IH Hlater), andb_true_r. apply negb_true_iff.
    destruct (PyStr.starts_with container ((String x scheme +:+ "://") +:+ rest)) eqn:E;
      [|reflexivity].
    replace ((String x scheme +:+ "://") +:+ rest)
      with ((String x scheme +:+ ":") +:+ String "/" (String "/" rest)) in E
      by (rewrite !string_app_assoc; reflexivity).
    apply (starts_with_before_slash _ _ _ Hc) in E. congruence.
Qed.

(** On a path [scheme://container/key] whose scheme and container hold no
    slash, lines 90-91 give the container and the key without its leading
    slashes, provided the container is not empty and its name does not
    occur in [scheme:]. *)
Lemma parse_conf_path_uri (scheme container key : string) :
  PyStr.contains_char "/" scheme = false ->
  PyStr.contains_char "/" container = false ->
  container <> "" ->
  PyStr.occurs container (scheme +:+ ":") = false ->
  parse_conf_path (SStr (scheme +:+ "://" +:+ container +:+ "/" +:+ key))
  = Ok (container, PyStr.lstrip "/" key).
Proof.
  intros Hscheme Hcontainer Hne Hocc.
  apply parse_conf_path_first_occurrence; try assumption.
  apply absent_before_scheme; assumption.
Qed.

End Splitting.

(** ** Parsing the path *)

(** A path with fewer than three segments has no segment of index 2. *)
Lemma parse_conf_path_short (p : string) (segments : list string) :
  PyStr.split "/" None p = Ok segments ->
  length segments < 3 ->
  parse_conf_path (SStr p) = Raise (Exn "IndexError" "list index out of range").
Proof.
  intros Hsplit Hlen. unfold parse_conf_path, method_split, PyStr.index.
  rewrite Hsplit. rewrite (lookup_ge_None_2 segments 2) by lia. reflexivity.
Qed.

Section Parsing.

Context {W : Type} (svc : Services W).

(** When the first [try] fails, the view logs twice, touches nothing and
    answers 400 with the text of the exception. *)
Lemma encrypt_parse_failure (args : gmap string string) (w : W) (e : exn) :
  parse_conf_path (args_get args "conf_path") = Raise e ->
  encrypt svc args w =
    Ran (Ok (Response [("error", "Invalid configuration path: " +:+ exn_str e)] (Some 400)))
        w
        [ Log INFO ("Reading config file from path: " +:+ py_str (args_get args "conf_path"));
          Log ERROR ("Invalid configuration path: " +:+ py_str (args_get args "conf_path")
                       +:+ ". Error: " +:+ exn_str e) ].
Proof.
  intros Hparse. unfold_view. rewrite Hparse. reflexivity.
Qed.

(** C9. A [conf_path] that splits on [/] into exactly two segments is
    answered with status 400 and the body
    [{"error": "Invalid configuration path: list index out of range"}]; the
    world is left as it was and the run makes no request at all: no storage
    read, no storage write, no secret resolution. *)
Theorem two_segments_rejected (args : gmap string string) (w : W)
    (p : string) (segments : list string) :
  args !! "conf_path" = Some p ->
  PyStr.split "/" None p = Ok segments ->
  length segments = 2 ->
  exists evs,
    encrypt svc args w =
      Ran (Ok (Response [("error", "Invalid configuration path: list index out of range")]
                        (Some 400)))
          w evs
    /\ calls evs = [].
Proof.
  intros Harg Hsplit Hlen.
  assert (Hparse : parse_conf_path (args_get args "conf_path")
                   = Raise (Exn "IndexError" "list index out of range")).
  { unfold args_get. rewrite Harg. cbn [from_option].
    eapply parse_conf_path_short; [eassumption | lia]. }
  rewrite (encrypt_parse_failure _ _ _ Hparse).
  eexists. split; reflexivity.
Qed.

(** C10. A request without the [conf_path] argument does not crash the
    view: splitting [None] raises inside the first [try], whose handler
    answers status 400 with an invalid-configuration-path body; nothing is
    requested from any service. *)
Theorem missing_conf_path_rejected (args : gmap string string) (w : W) :
  args !! "conf_path" = None ->
  exists evs,
    encrypt svc args w =
      Ran (Ok (Response [("error", "Invalid configuration path: "
                                     +:+ "'NoneType' object has no attribute 'split'")]
                        (Some 400)))
          w evs
    /\ calls evs = [].
Proof.
  intros Harg.
  assert (Hparse : parse_conf_path (args_get args "conf_path")
                   = Raise (Exn "AttributeError" "'NoneType' object has no attribute 'split'")).
  { unfold args_get. rewrite Harg. reflexivity. }
  rewrite (encrypt_parse_failure _ _ _ Hparse).
  eexists. split; reflexivity.
Qed.

End Parsing.

(** A path of two segments, [cfgbucket/conf.json]. *)
Lemma two_segments_rejected_witness :
  exists evs,
    encrypt (Sim.services Sim.docs) {[ "conf_path" := "cfgbucket/conf.json" ]} Sim.w0 =
      Ran (Ok (Response [("error", "Invalid configuration path: list index out of range")]
                        (Some 400)))
          Sim.w0 evs
    /\ calls evs = [].
Proof.
  apply (two_segments_rejected (Sim.services Sim.docs) _ Sim.w0
           "cfgbucket/conf.json" ["cfgbucket"; "conf.json"]);
    [vm_compute; reflexivity | reflexivity | reflexivity].
Defined.

(** A request with no query argument. *)
Lemma missing_conf_path_rejected_witness :
  exists evs,
    encrypt (Sim.services Sim.docs) ∅ Sim.w0 =
      Ran (Ok (Response [("error", "Invalid configuration path: "
                                     +:+ "'NoneType' object has no attribute 'split'")]
                        (Some 400)))
          Sim.w0 evs
    /\ calls evs = [].
Proof.
  apply (missing_conf_path_rejected (Sim.services Sim.docs) ∅ Sim.w0).
  reflexivity.
Defined.

(** ** Reading a trace *)

Lemma calls_app (t1 t2 : list event) : calls (t1 ++ t2) = calls t1 ++ calls t2.
Proof.
  induction t1 as [|ev t1 IH]; cbn; [reflexivity|].
  destruct (is_call ev); cbn; rewrite IH; reflexivity.
Qed.

Lemma secret_calls_app (t1 t2 : list event) :
  secret_calls (t1 ++ t2) = secret_calls t1 ++ secret_calls t2.
Proof.
  induction t1 as [|ev t1 IH]; cbn; [reflexivity|].
  destruct (is_secret_call ev); cbn; rewrite IH; reflexivity.
Qed.

Lemma uploads_app (t1 t2 : list event) : uploads (t1 ++ t2) = uploads t1 ++ uploads t2.
Proof.
  induction t1 as [|ev t1 IH]; cbn; [reflexivity|].
  destruct (is_upload ev); cbn; rewrite IH; reflexivity.
Qed.


Lemma uploads_calls (t : list event) : uploads (calls t) = uploads t.
Proof.
  induction t as [|ev t IH]; cbn; [reflexivity|].
  destruct ev; cbn; rewrite IH; reflexivity.
Qed.

Section Pipeline.

Context {W : Type} (svc : Services W).

(** The events of the view are those of the stages, followed on failure by
    one log record; the answer has the status of the terminal state. *)
Lemma encrypt_events (args : gmap string string) (w : W) :
  exists resp w' evs,
    encrypt svc args w = Ran (Ok resp) w' evs /\
    let '(o, w1, evs1) := run_stages svc args w in
    w' = w1 /\ status resp = status_of o /\
    calls evs = calls evs1 /\ secret_calls evs = secret_calls evs1 /\
    uploads evs = uploads evs1 /\ existsb persisted evs = existsb persisted evs1.
Proof.
  destruct (encrypt_outcome svc args w) as (resp & w' & evs & Hrun & Hout).
  exists resp, w', evs. split; [exact Hrun|].
  destruct (run_stages svc args w) as [[o w1] evs1].
  destruct o as [|s e].
  - destruct Hout as (-> & -> & ->). repeat split.
  - destruct Hout as (-> & -> & msg & ->).
    rewrite calls_app, secret_calls_app, uploads_app, existsb_app. cbn.
    rewrite !app_nil_r, orb_false_r. repeat split.
Qed.

(** An answer with status 200 comes from a run that ended in [Done]. *)
Lemma encrypt_ok_done (args : gmap string string) (w w' : W) (resp : response)
    (evs : list event) :
  encrypt svc args w = Ran (Ok resp) w' evs ->
  status resp = 200 ->
  exists evs1, run_stages svc args w = (Done, w', evs1) /\ calls evs = calls evs1.
Proof.
  intros Hrun Hstatus.
  destruct (encrypt_events args w) as (resp0 & w0 & evs0 & Hrun0 & Hout).
  rewrite Hrun in Hrun0. simplify_eq.
  destruct (run_stages svc args w) as [[o w1] evs1].
  destruct Hout as (-> & Hst & Hcalls & _).
  destruct o as [|s e].
  - eauto.
  - rewrite Hstatus in Hst. destruct s; discriminate.
Qed.

(** C3. Every invocation is answered, and the answer follows the terminal
    state of the stages: the body
    [{"message": "Success, file was encrypted and stored in GCS."}] with
    status 200 when every stage succeeds, a body [{"error": ...}] with
    status 400 when parsing the path fails, and a body [{"error": ...}] with
    status 500 when loading the configuration or resolving a secret, reading,
    encrypting or writing fails; the description ends with the text of the
    exception. *)
Theorem response_by_outcome (args : gmap string string) (w : W) :
  exists resp w' evs,
    encrypt svc args w = Ran (Ok resp) w' evs /\
    match run_stages svc args w with
    | (Done, _, _) =>
        body resp = [("message", "Success, file was encrypted and stored in GCS.")]
        /\ status resp = 200
    | (Failed ParsingPath e, _, _) =>
        (exists description, body resp = [("error", description +:+ exn_str e)])
        /\ status resp = 400
    | (Failed _ e, _, _) =>
        (exists description, body resp = [("error", description +:+ exn_str e)])
        /\ status resp = 500
    end.
Proof.
  destruct (encrypt_outcome svc args w) as (resp & w' & evs & Hrun & Hout).
  exists resp, w', evs. split; [exact Hrun|].
  destruct (run_stages svc args w) as [[o w1] evs1].
  destruct o as [|s e].
  - destruct Hout as (-> & _). split; reflexivity.
  - destruct Hout as (-> & _). destruct s; (split; [eexists|]; reflexivity).
Qed.


End Pipeline.

Section SourceAbsent.

Context {W : Type} (svc : Services W).

(** C7. When the download of the source object [file_path + file_name]
    from the working bucket raises (the object is absent), the view answers
    status 500 with the body [{"error": "Encryption failed: ..."}] that ends
    with the text of the storage exception, and the run requests no write. *)
Theorem source_absent (args : gmap string string) (w w1 w2 : W) (b n fp fn : string)
    (cfg : settings) (evs1 : list event) (e : exn) :
  parse_conf_path (args_get args "conf_path") = Ok (b, n) ->
  load_settings svc b n w = Ran (Ok cfg) w1 evs1 ->
  file_path cfg = SStr fp ->
  file_name cfg = SStr fn ->
  bucket svc (gcs_bucket cfg) = Ok tt ->
  download_as_text svc (gcs_bucket cfg) (fp +:+ fn) w1 = (Raise e, w2) ->
  exists evs,
    encrypt svc args w =
      Ran (Ok (Response [("error", "Encryption failed: " +:+ exn_str e)] (Some 500))) w2 evs
    /\ uploads evs = []
    /\ In (Download (gcs_bucket cfg) (fp +:+ fn) (Raise e)) evs.
Proof.
  intros Hparse Hload Hfp Hfn Hbucket Hdown.
  assert (Hread : read_data svc (gcs_bucket cfg) (file_path cfg) (file_name cfg) w1
                  = Ran (Raise e) w2
                      [ Download (gcs_bucket cfg) (fp +:+ fn) (Raise e);
                        Log ERROR ("Failed to read file: " +:+ fn +:+ " from bucket: "
                                     +:+ gcs_bucket cfg +:+ ". Error: " +:+ exn_str e) ]).
  { unfold read_data. unfold_monad. rewrite Hbucket, Hfp, Hfn. cbn [py_add].
    rewrite Hdown. reflexivity. }
  assert (Hstages : run_stages svc args w
                    = (Failed Reading e, w2,
                       entering args :: evs1 ++
                         [ Download (gcs_bucket cfg) (fp +:+ fn) (Raise e);
                           Log ERROR ("Failed to read file: " +:+ fn +:+ " from bucket: "
                                        +:+ gcs_bucket cfg +:+ ". Error: " +:+ exn_str e) ])).
  { unfold run_stages, conf_path_of. rewrite Hparse, Hload, Hread. reflexivity. }
  destruct (encrypt_outcome svc args w) as (resp & w' & evs & Hrun & Hout).
  pose proof (run_stages_shape svc args w _ _ _ Hstages) as (_ & _ & _ & _ & Hup).
  rewrite Hstages in Hout. destruct Hout as (-> & -> & msg & ->).
  exists ((entering args :: evs1 ++
             [ Download (gcs_bucket cfg) (fp +:+ fn) (Raise e);
               Log ERROR ("Failed to read file: " +:+ fn +:+ " from bucket: "
                            +:+ gcs_bucket cfg +:+ ". Error: " +:+ exn_str e) ])
          ++ [Log ERROR msg]).
  split; [exact Hrun|]. split.
  - rewrite uploads_app, Hup. reflexivity.
  - apply in_or_app. left. right. apply in_or_app. right. left. reflexivity.
Qed.

End SourceAbsent.

Section EncryptionStage.

Context {W : Type} (svc : Services W).

(** What the second [try] of [read_and_encrypt_data] does, by the answers
    of the engine. *)
Lemma encrypt_data_cases (plaintext key_data recipient : string) (w : W) :
  match import_keys svc key_data w with
  | (Raise e, w1) =>
      value (encrypt_data svc plaintext key_data recipient w) = Raise e
  | (Ok _, w1) =>
      match gpg_encrypt svc plaintext [recipient] true w1 with
      | (Raise e, _) => value (encrypt_data svc plaintext key_data recipient w) = Raise e
      | (Ok c, _) =>
          value (encrypt_data svc plaintext key_data recipient w) =
            if ok c then Ok c
            else Raise (Exn "ValueError" ("Encryption failed: " +:+ stderr c))
      end
  end.
Proof.
  unfold encrypt_data. unfold_monad.
  repeat run_step; first [reflexivity | cbn [negb] in *; discriminate].
Qed.

Lemma encrypt_data_no_upload (plaintext key_data recipient : string) (w : W) :
  uploads (events (encrypt_data svc plaintext key_data recipient w)) = [].
Proof.
  unfold encrypt_data. unfold_monad. repeat run_step; reflexivity.
Qed.

(** C5, as the code has it. The encryption stage fails exactly when one
    of its two requests to the engine raises, or the engine returns from
    the encryption with its success flag unset, which is how it reports a
    recipient without a key; in that case the stage raises a [ValueError]
    whose text carries the engine's diagnostic.  What the import returns is
    not looked at.  The stage requests no write, and a run that fails in it
    is answered 500 with the text of the failure and requests no write
    either. *)
Theorem encryption_stage_failure (plaintext key_data recipient : string) (w : W) :
  (forall e,
     value (encrypt_data svc plaintext key_data recipient w) = Raise e <->
     engine_raises svc plaintext key_data recipient w e \/
     exists c,
       engine_reports_failure svc plaintext key_data recipient w c /\
       e = Exn "ValueError" ("Encryption failed: " +:+ stderr c)) /\
  uploads (events (encrypt_data svc plaintext key_data recipient w)) = [] /\
  (forall args w0,
     match run_stages svc args w0 with
     | (Failed Encrypting e, _, _) =>
         exists w' evs,
           encrypt svc args w0 =
             Ran (Ok (Response [("error", "Encryption failed: " +:+ exn_str e)] (Some 500)))
                 w' evs
           /\ uploads evs = []
     | _ => True
     end).
Proof.
  split; [|split].
  - intros e. pose proof (encrypt_data_cases plaintext key_data recipient w) as Hc.
    unfold engine_raises, engine_reports_failure.
    destruct (import_keys svc key_data w) as [[ir|e1] w1] eqn:Himp.
    + destruct (gpg_encrypt svc plaintext [recipient] true w1) as [[c|e2] w2] eqn:Henc.
      * rewrite Hc. destruct (ok c) eqn:Hok; split.
        -- discriminate.
        -- intros [[(w3 & H) | (ir' & w3 & w4 & H1 & H2)]
                  | (c' & (ir' & w3 & w4 & H1 & H2 & H3) & _)];
             simplify_eq; congruence.
        -- intros H. simplify_eq. right. exists c. split; [|reflexivity].
           exists ir, w1, w2. auto.
        -- intros [[(w3 & H) | (ir' & w3 & w4 & H1 & H2)]
                  | (c' & (ir' & w3 & w4 & H1 & H2 & H3) & ->)];
             simplify_eq; reflexivity || congruence.
      * rewrite Hc. split.
        -- intros H. simplify_eq. left. right. exists ir, w1, w2. auto.
        -- intros [[(w3 & H) | (ir' & w3 & w4 & H1 & H2)]
                  | (c' & (ir' & w3 & w4 & H1 & H2 & H3) & _)];
             simplify_eq; reflexivity || congruence.
    + rewrite Hc. split.
      * intros H. simplify_eq. left. left. eauto.
      * intros [[(w3 & H) | (ir' & w3 & w4 & H1 & H2)]
                | (c' & (ir' & w3 & w4 & H1 & H2 & H3) & _)];
          simplify_eq; reflexivity || congruence.
  - apply encrypt_data_no_upload.
  - intros args w0.
    destruct (encrypt_outcome svc args w0) as (resp & w' & evs & Hrun & Hout).
    pose proof (run_stages_shape svc args w0) as Hshape.
    destruct (run_stages svc args w0) as [[o w1] evs1].
    specialize (Hshape w1 o evs1 eq_refl). destruct Hshape as (_ & _ & _ & _ & Hup).
    destruct o as [|s e]; [exact I|]. destruct s; try exact I.
    destruct Hout as (-> & -> & msg & ->).
    exists w1, (evs1 ++ [Log ERROR msg]). split; [exact Hrun|].
    rewrite uploads_app, Hup. reflexivity.
Qed.

End EncryptionStage.

(** C5, as the specification states it, fails: key material that does not
    import does not fail the stage.  With the recipient's key already in the
    keyring, the import of a text that is no key reads no key, and the stage
    returns the encrypted text. *)
Lemma failed_import_is_not_fatal :
  exists w1 c,
    import_keys Sim.svc "not a key" Sim.w_keyed = (Ok {| count := 0 |}, w1) /\
    value (encrypt_data Sim.svc "a,b,c" "not a key" "alice" Sim.w_keyed) = Ok c /\
    ok c = true.
Proof.
  eexists _, _. repeat split; vm_compute; reflexivity.
Qed.

Section ConfigLoading.

Context {W : Type} (svc : Services W).

(** A failure of the second [try] is answered 500. *)
Lemma load_failure_answer (args : gmap string string) (w : W) (b n : string) (e : exn) :
  parse_conf_path (args_get args "conf_path") = Ok (b, n) ->
  value (load_settings svc b n w) = Raise e ->
  exists w' evs,
    encrypt svc args w =
      Ran (Ok (Response [("error", "Failed to fetch configuration or secrets: " +:+ exn_str e)]
                        (Some 500)))
          w' evs.
Proof.
  intros Hparse Hload.
  destruct (encrypt_outcome svc args w) as (resp & w' & evs & Hrun & Hout).
  unfold run_stages, conf_path_of in Hout. rewrite Hparse in Hout.
  destruct (load_settings svc b n w) as [[cfg|e'] w1 evs1]; cbn in Hload; simplify_eq.
  destruct Hout as (-> & _). eauto.
Qed.

(** Loading fails when one of the six fields is missing from the object. *)
Lemma load_settings_missing (b n text : string) (w w1 : W) (evs0 : list event)
    (d : gmap string scalar) (key : string) :
  fetch_conf_details svc b n w = Ran (Ok text) w1 evs0 ->
  loads svc text = Ok (Dict d) ->
  In key required_fields ->
  d !! key = None ->
  exists e, value (load_settings svc b n w) = Raise e.
Proof.
  intros Hfetch Hloads Hin Hnone.
  unfold load_settings, fetch_secret. unfold_monad.
  rewrite Hfetch. reduce. rewrite Hloads. cbn [getitem].
  repeat run_step; try (eexists; reflexivity).
  exfalso. cbn in Hin.
  destruct Hin as [<-|[<-|[<-|[<-|[<-|[<-|[]]]]]]]; congruence.
Qed.

(** C6, as the code has it. For a configuration object that was fetched
    and parsed: when one of the six required fields is missing, loading
    fails and the view answers 500; when all six are present and the three
    secrets resolve, loading succeeds and binds the three resolved values
    and the values of [file_name], [file_path] and [encrypted_file_path] as
    they are in the object, [null] included. *)
Theorem config_fields_required (b n text : string) (w w1 : W) (evs0 : list event)
    (d : gmap string scalar) :
  fetch_conf_details svc b n w = Ran (Ok text) w1 evs0 ->
  loads svc text = Ok (Dict d) ->
  (forall key,
     In key required_fields -> d !! key = None ->
     exists e,
       value (load_settings svc b n w) = Raise e /\
       forall args,
         parse_conf_path (args_get args "conf_path") = Ok (b, n) ->
         exists w' evs,
           encrypt svc args w =
             Ran (Ok (Response [("error", "Failed to fetch configuration or secrets: "
                                            +:+ exn_str e)]
                               (Some 500)))
                 w' evs) /\
  (forall id1 id2 id3 fn fp efp v1 v2 v3 w2 w3 w4 evs1 evs2 evs3,
     d !! "gpg_public_key" = Some id1 ->
     d !! "gcs_bucket" = Some id2 ->
     d !! "recipient_name" = Some id3 ->
     d !! "file_name" = Some fn ->
     d !! "file_path" = Some fp ->
     d !! "encrypted_file_path" = Some efp ->
     fetch_secret svc id1 w1 = Ran (Ok v1) w2 evs1 ->
     fetch_secret svc id2 w2 = Ran (Ok v2) w3 evs2 ->
     fetch_secret svc id3 w3 = Ran (Ok v3) w4 evs3 ->
     value (load_settings svc b n w) = Ok (Settings v1 v2 v3 fn fp efp)).
Proof.
  intros Hfetch Hloads. split.
  - intros key Hin Hnone.
    destruct (load_settings_missing _ _ _ _ _ _ _ _ Hfetch Hloads Hin Hnone) as [e He].
    exists e. split; [exact He|].
    intros args Hparse. eapply load_failure_answer; eassumption.
  - intros id1 id2 id3 fn fp efp v1 v2 v3 w2 w3 w4 evs1 evs2 evs3
      H1 H2 H3 H4 H5 H6 Hs1 Hs2 Hs3.
    unfold load_settings. unfold_monad.
    rewrite Hfetch. reduce. rewrite Hloads. cbn [getitem].
    rewrite H1, Hs1. reduce. rewrite H2, Hs2. reduce. rewrite H3, Hs3. reduce.
    rewrite H4, H5, H6. reflexivity.
Qed.

End ConfigLoading.

(** ** The scenarios of the specification, run *)

(** The scenario of section 8: the configuration at
    [gs://cfgbucket/app/conf.json] and the source at [in/report.csv] of
    [data-bucket]. *)
Example scenario_answer :
  value (encrypt Sim.svc Sim.args Sim.w0)
  = Ok (Response [("message", "Success, file was encrypted and stored in GCS.")] None).
Proof. vm_compute. reflexivity. Qed.

Example scenario_requests :
  calls (events (encrypt Sim.svc Sim.args Sim.w0))
  = [ Download "cfgbucket" "app/conf.json" (Ok Sim.conf_text);
      AccessSecret "projects/p/secrets/key/versions/latest" (Ok "KEY:alice");
      AccessSecret "projects/p/secrets/bucket/versions/latest" (Ok "data-bucket");
      AccessSecret "projects/p/secrets/recipient/versions/latest" (Ok "alice");
      Download "data-bucket" "in/report.csv" (Ok "a,b,c");
      ImportKeys "KEY:alice" (Ok {| count := 1 |});
      Encrypt "a,b,c" ["alice"] true (Ok {| ok := true; stderr := ""; data := "PGP<a,b,c>" |});
      Upload "data-bucket" "out/report.csv.asc" "PGP<a,b,c>" (Ok tt) ].
Proof. vm_compute. reflexivity. Qed.

Example scenario_stored :
  Sim.blobs (after (encrypt Sim.svc Sim.args Sim.w0)) !! ("data-bucket", "out/report.csv.asc")
  = Some "PGP<a,b,c>".
Proof. vm_compute. reflexivity. Qed.

Example scenario_outcome :
  fst (fst (run_stages Sim.svc Sim.args Sim.w0)) = Done.
Proof. vm_compute. reflexivity. Qed.

(** The recipient has no key in the keyring: the engine reports it, the
    view answers 500 with the diagnostic, and nothing is written. *)
Example scenario_no_key :
  fst (fst (run_stages Sim.svc Sim.args Sim.w_stranger))
  = Failed Encrypting (Exn "ValueError" "Encryption failed: gpg: skipped: No public key")
  /\ value (encrypt Sim.svc Sim.args Sim.w_stranger)
     = Ok (Response [("error", "Encryption failed: Encryption failed: "
                                 +:+ "gpg: skipped: No public key")]
                    (Some 500))
  /\ uploads (events (encrypt Sim.svc Sim.args Sim.w_stranger)) = []
  /\ Sim.blobs (after (encrypt Sim.svc Sim.args Sim.w_stranger))
       !! ("data-bucket", "out/report.csv.asc") = None.
Proof. repeat split; vm_compute; reflexivity. Qed.

(** The store refuses the write: the one upload raises, the view answers
    500, and the store has no object at the destination. *)
Example scenario_write_refused :
  value (encrypt Sim.svc_read_only Sim.args Sim.w0)
  = Ok (Response [("error", "Failed to store encrypted file: "
                              +:+ "403 caller does not have storage.objects.create access")]
                 (Some 500))
  /\ uploads (events (encrypt Sim.svc_read_only Sim.args Sim.w0))
     = [ Upload "data-bucket" "out/report.csv.asc" "PGP<a,b,c>"
           (Raise (Exn "Forbidden" "403 caller does not have storage.objects.create access")) ]
  /\ Sim.blobs (after (encrypt Sim.svc_read_only Sim.args Sim.w0))
       !! ("data-bucket", "out/report.csv.asc") = None.
Proof. repeat split; vm_compute; reflexivity. Qed.


(** The source object is missing from the working bucket. *)
Lemma source_absent_witness :
  exists evs,
    encrypt Sim.svc Sim.args Sim.w_no_source =
      Ran (Ok (Response [("error", "Encryption failed: "
                                     +:+ "404 No such object: data-bucket/in/report.csv")]
                        (Some 500)))
          Sim.w_no_source evs
    /\ uploads evs = []
    /\ In (Download "data-bucket" "in/report.csv"
             (Raise (Exn "NotFound" "404 No such object: data-bucket/in/report.csv"))) evs.
Proof.
  apply (source_absent Sim.svc Sim.args Sim.w_no_source Sim.w_no_source Sim.w_no_source
           "cfgbucket" "app/conf.json" "in/" "report.csv" Sim.cfg
           (events (load_settings Sim.svc "cfgbucket" "app/conf.json" Sim.w_no_source))
           (Exn "NotFound" "404 No such object: data-bucket/in/report.csv"));
    vm_compute; reflexivity.
Defined.

(** All six fields present and the three secrets resolved: the values are
    bound as they are in the object. *)
Lemma config_fields_required_witness :
  value (load_settings Sim.svc "cfgbucket" "app/conf.json" Sim.w0) = Ok Sim.cfg.
Proof.
  refine (proj2 (config_fields_required Sim.svc "cfgbucket" "app/conf.json" Sim.conf_text
                   Sim.w0 Sim.w0
                   (events (fetch_conf_details Sim.svc "cfgbucket" "app/conf.json" Sim.w0))
                   Sim.conf _ _)
            (SStr "projects/p/secrets/key") (SStr "projects/p/secrets/bucket")
            (SStr "projects/p/secrets/recipient")
            (SStr "report.csv") (SStr "in/") (SStr "out/")
            "KEY:alice" "data-bucket" "alice" Sim.w0 Sim.w0 Sim.w0
            (events (fetch_secret Sim.svc (SStr "projects/p/secrets/key") Sim.w0))
            (events (fetch_secret Sim.svc (SStr "projects/p/secrets/bucket") Sim.w0))
            (events (fetch_secret Sim.svc (SStr "projects/p/secrets/recipient") Sim.w0))
            _ _ _ _ _ _ _ _ _);
    vm_compute; reflexivity.
Defined.

(** A missing field: loading fails with the [KeyError] of the field, and
    the view answers 500. *)
Example missing_field_answer :
  value (encrypt Sim.svc_short Sim.args Sim.w0)
  = Ok (Response [("error", "Failed to fetch configuration or secrets: 'file_name'")]
                 (Some 500)).
Proof. vm_compute. reflexivity. Qed.

(** C6, as the specification states it, fails: a field that is [null] does
    not fail the loading.  With [encrypted_file_path] null and the rest of
    the scenario unchanged, loading binds [None]; the view goes on to read
    and encrypt the source, and fails only when it builds the name of the
    destination. *)
Lemma null_field_passes_loading :
  Sim.conf_null !! "encrypted_file_path" = Some SNone /\
  value (load_settings Sim.svc_null "cfgbucket" "app/conf.json" Sim.w0)
  = Ok (Settings "KEY:alice" "data-bucket" "alice" (SStr "report.csv") (SStr "in/") SNone) /\
  value (encrypt Sim.svc_null Sim.args Sim.w0)
  = Ok (Response [("error", "Failed to store encrypted file: "
                              +:+ "unsupported operand type(s) for +: 'NoneType' and 'str'")]
                 (Some 500)) /\
  calls (events (encrypt Sim.svc_null Sim.args Sim.w0)) !! 6
  = Some (Encrypt "a,b,c" ["alice"] true
            (Ok {| ok := true; stderr := ""; data := "PGP<a,b,c>" |})).
Proof. repeat split; vm_compute; reflexivity. Qed.

(** ** The bucket name inside the scheme *)

(** C1. The object name is what follows the first occurrence of the bucket
    name in the path, which is not always the segment the name was taken
    from: in [gcs://gcs/app/conf.json] the name [gcs] first occurs as the
    scheme, and the object name comes out as [://gcs/app/conf.json] where
    the path names [app/conf.json]. *)
Theorem parse_conf_path_bucket_in_scheme :
  parse_conf_path (SStr "gcs://gcs/app/conf.json") = Ok ("gcs", "://gcs/app/conf.json").
Proof. reflexivity. Qed.

(** ** What parsing keeps *)

Section PathInvariants.

#[local] Arguments String.append !s1 s2 : simpl nomatch.

(** With no cut left, the scan passes over what it must and returns the
    rest as one piece. *)
Lemma split_go_last (sep s : string) (skip : nat) :
  PyStr.split_go sep s skip (Some 0) = (PyStr.drop skip s, []).
Proof.
  revert skip. induction s as [|c s IH]; intros skip.
  - destruct skip; reflexivity.
  - destruct skip as [|k]; cbn.
    + rewrite (IH 0). reflexivity.
    + apply IH.
Qed.

Lemma occurs_start (sub s : string) :
  PyStr.starts_with sub s = true -> PyStr.occurs sub s = true.
Proof. intros H. destruct s; cbn; rewrite H; reflexivity. Qed.

Lemma occurs_later (sub : string) (c : ascii) (s : string) :
  PyStr.occurs sub s = true -> PyStr.occurs sub (String c s) = true.
Proof. intros H. cbn. rewrite H. apply orb_true_r. Qed.

Lemma occurs_drop (sub s : string) (k : nat) :
  PyStr.occurs sub (PyStr.drop k s) = true -> PyStr.occurs sub s = true.
Proof.
  revert s. induction k as [|k IH]; intros s H; [exact H|].
  destruct s as [|c s]; [exact H|].
  apply occurs_later, IH. exact H.
Qed.

(** Every piece of a split is a part of the text. *)
Lemma split_go_pieces (sep s : string) (skip : nat) (left : option nat) :
  let '(p, ps) := PyStr.split_go sep s skip left in
  PyStr.starts_with p (PyStr.drop skip s) = true /\
  forall q, In q ps -> PyStr.occurs q (PyStr.drop skip s) = true.
Proof.
  revert skip left. induction s as [|c s IH]; intros skip left.
  - cbn. destruct skip; split; (reflexivity || intros q []).
  - destruct skip as [|k].
    + cbn [PyStr.split_go PyStr.drop].
      destruct (PyStr.may_split left && PyStr.starts_with sep (String c s)).
      * specialize (IH (pred (String.length sep)) (PyStr.one_less left)).
        destruct (PyStr.split_go sep s (pred (String.length sep)) (PyStr.one_less left))
          as [p ps].
        destruct IH as [Hp Hps]. split; [reflexivity|].
        intros q [<-|Hq]; apply occurs_later, (occurs_drop _ _ (pred (String.length sep))).
        -- apply occurs_start, Hp.
        -- apply Hps, Hq.
      * specialize (IH 0 left).
        destruct (PyStr.split_go sep s 0 left) as [p ps].
        destruct IH as [Hp Hps]. cbn [PyStr.drop] in *. split.
        -- cbn. rewrite Ascii.eqb_refl. exact Hp.
        -- intros q Hq. apply occurs_later, Hps, Hq.
    + cbn [PyStr.split_go PyStr.drop]. apply IH.
Qed.

(** A text that occurs is cut at once: a split with [maxsplit=1] gives two
    pieces. *)
Lemma split_go_occurs (sub s : string) :
  sub <> "" ->
  PyStr.occurs sub s = true ->
  exists x y, PyStr.split_go sub s 0 (Some 1) = (x, [y]).
Proof.
  intros Hne. induction s as [|c s IH]; intros Hocc.
  - cbn in Hocc. rewrite orb_false_r in Hocc.
    destruct sub; [congruence | discriminate].
  - cbn [PyStr.split_go PyStr.may_split andb].
    destruct (PyStr.starts_with sub (String c s)) eqn:Hstart.
    + cbn [PyStr.one_less pred]. rewrite split_go_last. eauto.
    + cbn [PyStr.occurs] in Hocc. rewrite Hstart in Hocc. cbn [orb] in Hocc.
      destruct (IH Hocc) as (x & y & ->). eauto.
Qed.

(** The pieces of a split on [/] hold no slash. *)
Lemma split_go_slash_free (s : string) (skip : nat) :
  let '(p, ps) := PyStr.split_go "/" s skip None in
  PyStr.contains_char "/" p = false /\
  forall q, In q ps -> PyStr.contains_char "/" q = false.
Proof.
  revert skip. induction s as [|c s IH]; intros skip.
  - cbn. split; [reflexivity | intros q []].
  - destruct skip as [|k]; [|cbn [PyStr.split_go]; apply IH].
    cbn [PyStr.split_go PyStr.may_split PyStr.starts_with andb String.length pred
         PyStr.one_less].
    specialize (IH 0).
    destruct (Ascii.eqb "/" c) eqn:Hc;
      destruct (PyStr.split_go "/" s 0 None) as [p ps]; destruct IH as [Hp Hps].
    + destruct s; (split; [reflexivity|]); intros q [<-|Hq]; auto.
    + split; [|exact Hps]. cbn [PyStr.contains_char]. rewrite Hc. exact Hp.
Qed.

(** [lstrip] takes leading characters of the set away and nothing else. *)
Lemma lstrip_decompose (chars s : string) :
  exists lead,
    s = lead +:+ PyStr.lstrip chars s /\
    PyStr.lstrip chars lead = "" /\
    match PyStr.lstrip chars s with
    | "" => True
    | String c _ => PyStr.contains_char c chars = false
    end.
Proof.
  induction s as [|c s (lead & Hs & Hlead & Hhead)].
  - exists "". repeat split.
  - cbn [PyStr.lstrip]. destruct (PyStr.contains_char c chars) eqn:Hc.
    + exists (String c lead). repeat split.
      * cbn. rewrite <- Hs. reflexivity.
      * cbn. rewrite Hc. exact Hlead.
      * exact Hhead.
    + exists "". repeat split. exact Hc.
Qed.

Lemma lookup_1_In {A} (l : list A) (x : A) : l !! 1 = Some x -> In x l.
Proof.
  destruct l as [|a [|b l]]; cbn; intros H; simplify_eq. right. left. reflexivity.
Qed.

(** The third segment of a path occurs in the path. *)
Lemma third_segment_occurs (p b : string) (segments : list string) :
  PyStr.split "/" None p = Ok segments ->
  segments !! 2 = Some b ->
  PyStr.occurs b p = true /\ PyStr.contains_char "/" b = false.
Proof.
  unfold PyStr.split. intros Hsplit Hb.
  pose proof (split_go_pieces "/" p 0 None) as Hparts.
  pose proof (split_go_slash_free p 0) as Hfree.
  destruct (PyStr.split_go "/" p 0 None) as [x ps]. simplify_eq.
  apply lookup_1_In in Hb. split; [apply Hparts | apply Hfree]; exact Hb.
Qed.

(** Lines 90-91, step by step, when they succeed. *)
Lemma parse_conf_path_steps (p b k : string) :
  parse_conf_path (SStr p) = Ok (b, k) ->
  exists segments before rest,
    PyStr.split "/" None p = Ok segments /\
    segments !! 2 = Some b /\
    b <> "" /\
    PyStr.split b (Some 1) p = Ok [before; rest] /\
    k = PyStr.lstrip "/" rest.
Proof.
  unfold parse_conf_path, method_split, PyStr.index.
  destruct (PyStr.split "/" None p) as [segments|e] eqn:Hsegments; [|discriminate].
  destruct (segments !! 2) as [b'|] eqn:Hb; [|discriminate].
  destruct (third_segment_occurs _ _ _ Hsegments Hb) as [Hocc _].
  destruct b' as [|a b']; [discriminate|].
  destruct (split_go_occurs (String a b') p) as (before & rest & Hcut);
    [discriminate | exact Hocc |].
  unfold PyStr.split at 1. rewrite Hcut. cbn [lookup list_lookup].
  intros H. simplify_eq.
  exists segments, before, rest. repeat split; try done.
  unfold PyStr.split. rewrite Hcut. reflexivity.
Qed.

(** X2. Parsing a path fails in two ways only: with [IndexError] when the
    path has fewer than three segments, and with [ValueError] when its third
    segment is empty.  In every other case it succeeds with the third
    segment as the bucket: the second index, [[1]], never fails, because a
    segment of the path always occurs in the path. *)
Theorem parse_conf_path_failures (p : string) :
  exists segments,
    PyStr.split "/" None p = Ok segments /\
    match segments !! 2 with
    | None =>
        parse_conf_path (SStr p) = Raise (Exn "IndexError" "list index out of range")
    | Some "" =>
        parse_conf_path (SStr p) = Raise (Exn "ValueError" "empty separator")
    | Some bucket_name =>
        exists key, parse_conf_path (SStr p) = Ok (bucket_name, key)
    end.
Proof.
  destruct (PyStr.split "/" None p) as [segments|e] eqn:Hsegments;
    [|unfold PyStr.split in Hsegments;
      destruct (PyStr.split_go "/" p 0 None); discriminate].
  exists segments. split; [reflexivity|].
  destruct (segments !! 2) as [b|] eqn:Hb.
  - destruct (third_segment_occurs _ _ _ Hsegments Hb) as [Hocc _].
    unfold parse_conf_path, method_split, PyStr.index. rewrite Hsegments, Hb.
    destruct b as [|a b]; [reflexivity|].
    destruct (split_go_occurs (String a b) p) as (before & rest & Hcut);
      [discriminate | exact Hocc |].
    unfold PyStr.split. rewrite Hcut. cbn [lookup list_lookup]. eauto.
  - apply (parse_conf_path_short p segments Hsegments).
    apply lookup_ge_None in Hb. lia.
Qed.

(** X3. What a successful parsing returns: a bucket name that is not empty
    and holds no slash, and a key that does not start with a slash; the
    path is some text, the bucket name, some slashes and the key, in that
    order. *)
Theorem parse_conf_path_invariants (p b k : string) :
  parse_conf_path (SStr p) = Ok (b, k) ->
  b <> "" /\
  PyStr.contains_char "/" b = false /\
  PyStr.starts_with "/" k = false /\
  exists before slashes,
    p = before +:+ b +:+ slashes +:+ k /\ PyStr.lstrip "/" slashes = "".
Proof.
  intros Hparse.
  destruct (parse_conf_path_steps _ _ _ Hparse)
    as (segments & before & rest & Hsegments & Hb & Hne & Hcut & ->).
  destruct (third_segment_occurs _ _ _ Hsegments Hb) as [_ Hfree].
  destruct (lstrip_decompose "/" rest) as (slashes & Hrest & Hslashes & Hhead).
  repeat split; try assumption.
  - destruct (PyStr.lstrip "/" rest) as [|c k]; [reflexivity|].
    cbn in Hhead. rewrite orb_false_r in Hhead.
    cbn [PyStr.starts_with]. rewrite Ascii.eqb_sym, Hhead. reflexivity.
  - exists before, slashes. split; [|exact Hslashes].
    rewrite <- Hrest. symmetry. apply (split_join b p (Some 1) [before; rest] Hcut).
Qed.

End PathInvariants.

(** The path of the scenario. *)
Lemma parse_conf_path_invariants_witness :
  "cfgbucket" <> "" /\
  PyStr.contains_char "/" "cfgbucket" = false /\
  PyStr.starts_with "/" "app/conf.json" = false /\
  exists before slashes,
    "gs://cfgbucket/app/conf.json" = before +:+ "cfgbucket" +:+ slashes +:+ "app/conf.json"
    /\ PyStr.lstrip "/" slashes = "".
Proof.
  apply (parse_conf_path_invariants "gs://cfgbucket/app/conf.json" "cfgbucket" "app/conf.json").
  reflexivity.
Defined.

Section WellFormedPath.

Lemma lstrip_no_slash (key : string) :
  PyStr.starts_with "/" key = false -> PyStr.lstrip "/" key = key.
Proof.
  destruct key as [|c key]; [reflexivity|].
  cbn [PyStr.starts_with PyStr.lstrip PyStr.contains_char].
  rewrite (Ascii.eqb_sym c "/"). destruct (Ascii.eqb "/" c); [discriminate | reflexivity].
Qed.

(** X1. On a path [scheme://container/key] whose scheme and container hold
    no slash and whose key does not start with one, lines 90-91 give exactly
    the container and the key, provided the container is not empty and its
    name does not occur in [scheme:]. *)
Theorem parse_conf_path_well_formed (scheme container key : string) :
  PyStr.contains_char "/" scheme = false ->
  PyStr.contains_char "/" container = false ->
  container <> "" ->
  PyStr.occurs container (scheme +:+ ":") = false ->
  PyStr.starts_with "/" key = false ->
  parse_conf_path (SStr (scheme +:+ "://" +:+ container +:+ "/" +:+ key))
  = Ok (container, key).
Proof.
  intros Hscheme Hcontainer Hne Hocc Hkey.
  rewrite (parse_conf_path_uri scheme container key) by assumption.
  rewrite (lstrip_no_slash key Hkey). reflexivity.
Qed.

End WellFormedPath.

(** The path of the scenario, [gs://cfgbucket/app/conf.json]. *)
Lemma parse_conf_path_well_formed_witness :
  parse_conf_path (SStr ("gs" +:+ "://" +:+ "cfgbucket" +:+ "/" +:+ "app/conf.json"))
  = Ok ("cfgbucket", "app/conf.json").
Proof.
  apply (parse_conf_path_well_formed "gs" "cfgbucket" "app/conf.json");
    [reflexivity | reflexivity | discriminate | reflexivity | reflexivity].
Defined.

(** ** The log of a run *)

Lemma error_logs_app (t1 t2 : list event) :
  error_logs (t1 ++ t2) = error_logs t1 ++ error_logs t2.
Proof.
  induction t1 as [|ev t1 IH]; cbn; [reflexivity|].
  destruct (is_error_log ev); cbn; rewrite IH; reflexivity.
Qed.

Ltac read_log :=
  cbn [logs error_logs is_error_log one_trusted_recipient forallb length app andb] in *.

Section Logging.

Context {W : Type} (svc : Services W).

(** The view, by the terminal state of the stages: its answer, and what it
    logs when a stage failed. *)
Lemma encrypt_answer_and_log (args : gmap string string) (w : W) :
  match run_stages svc args w with
  | (Done, w1, evs1) =>
      encrypt svc args w =
        Ran (Ok (Response [("message", "Success, file was encrypted and stored in GCS.")] None))
            w1 evs1
  | (Failed s e, w1, evs1) =>
      encrypt svc args w =
        Ran (Ok (Response [("error", error_prefix s +:+ exn_str e)]
                          (Some (status_of (Failed s e)))))
            w1 (evs1 ++ [Log ERROR (handler_log args s e)])
  end.
Proof.
  unfold run_stages, entering, conf_path_of. unfold_view.
  repeat run_step; cbn [error_prefix status_of handler_log]; norm_list; reflexivity.
Qed.

(** What the stages log at ERROR level, and how they ask for encryption. *)
Lemma run_stages_logs (args : gmap string string) (w w1 : W) (o : outcome)
    (evs : list event) :
  run_stages svc args w = (o, w1, evs) ->
  forallb one_trusted_recipient evs = true /\
  match o with
  | Done => error_logs evs = []
  | Failed ParsingPath _ => error_logs evs = []
  | Failed _ _ => length (error_logs evs) <= 1
  end.
Proof.
  unfold run_stages, entering, conf_path_of. unfold_stages.
  repeat run_step; intros; simplify_eq; norm_list; read_log;
    (split; [reflexivity|]); reflexivity || lia.
Qed.

(** X6. A run logs at ERROR level exactly when it fails.  A run that
    succeeds logs no ERROR record; a run that fails ends with the ERROR
    record of the handler that answers, which carries the same exception
    text as the body of the response, and holds at most two ERROR records:
    the helper's and the view's. *)
Theorem failure_is_logged (args : gmap string string) (w : W) :
  exists resp w' evs,
    encrypt svc args w = Ran (Ok resp) w' evs /\
    match run_stages svc args w with
    | (Done, _, _) => status resp = 200 /\ error_logs evs = []
    | (Failed s e, _, _) =>
        status resp <> 200 /\
        body resp = [("error", error_prefix s +:+ exn_str e)] /\
        last evs = Some (Log ERROR (handler_log args s e)) /\
        1 <= length (error_logs evs) <= 2
    end.
Proof.
  pose proof (encrypt_answer_and_log args w) as Hrun.
  pose proof (run_stages_logs args w) as Hlogs.
  destruct (run_stages svc args w) as [[o w1] evs1].
  specialize (Hlogs w1 o evs1 eq_refl). destruct Hlogs as [_ Herr].
  destruct o as [|s e]; do 3 eexists; (split; [exact Hrun|]).
  - split; [reflexivity | exact Herr].
  - rewrite last_snoc, error_logs_app, length_app. cbn [error_logs is_error_log length].
    repeat split; try lia.
    + destruct s; discriminate.
    + destruct s; try lia. rewrite Herr. cbn. lia.
Qed.

(** A run that ends in [Done] logs nine INFO records. *)
Lemma run_stages_done_logs (args : gmap string string) (w w1 : W) (evs : list event) :
  run_stages svc args w = (Done, w1, evs) ->
  exists p b n text d id1 id2 id3 fn container,
    args !! "conf_path" = Some p /\
    parse_conf_path (SStr p) = Ok (b, n) /\
    loads svc text = Ok (Dict d) /\
    d !! "gpg_public_key" = Some id1 /\
    d !! "gcs_bucket" = Some id2 /\
    d !! "recipient_name" = Some id3 /\
    d !! "file_name" = Some (SStr fn) /\
    calls evs !! 2 = Some (AccessSecret (py_str id2 +:+ "/versions/latest") (Ok container)) /\
    logs evs =
      [ (INFO, "Reading config file from path: " +:+ p);
        (INFO, "Reading config file from GCS: " +:+ n);
        (INFO, "Successfully read config file: " +:+ n);
        (INFO, "Successfully fetched secret: " +:+ py_str id1);
        (INFO, "Successfully fetched secret: " +:+ py_str id2);
        (INFO, "Successfully fetched secret: " +:+ py_str id3);
        (INFO, "Successfully read file: " +:+ fn +:+ " from bucket: " +:+ container);
        (INFO, "Encryption successful");
        (INFO, "Encrypted file stored to GCS bucket successfully!") ].
Proof.
  unfold run_stages, entering, conf_path_of. unfold_stages.
  repeat run_step; intros; simplify_eq.
  repeat match goal with
         | H : getitem _ _ = Ok _ |- _ =>
             apply getitem_ok in H; destruct H as (? & ? & H); simplify_eq
         | H : py_add _ _ = Ok _ |- _ =>
             apply py_add_ok in H; destruct H as (? & ? & ? & ? & H); simplify_eq
         end.
  match goal with
  | H : parse_conf_path _ = Ok _ |- _ =>
      destruct (parse_conf_path_str _ _ H) as [p Hp]; rewrite Hp in *;
      apply args_get_str in Hp
  end.
  norm_list. read_trace. read_log. cbn [py_str].
  do 10 eexists. repeat split; try eassumption; reflexivity.
Qed.

End Logging.

Section MoreOfTheRun.

Context {W : Type} (svc : Services W).

(** X7. A run answered with status 200 logs exactly nine records, all at
    INFO level.  They are built from the path, the object name of the
    configuration, the three secret identifiers, the file name, and one
    resolved value: the seventh record names the bucket that the secret of
    [gcs_bucket] resolved to.  No record is built from the key material, the
    recipient, the text read or the text written. *)
Theorem success_log_records (args : gmap string string) (w w' : W)
    (resp : response) (evs : list event) :
  encrypt svc args w = Ran (Ok resp) w' evs ->
  status resp = 200 ->
  exists p b n text d id1 id2 id3 fn container,
    args !! "conf_path" = Some p /\
    parse_conf_path (SStr p) = Ok (b, n) /\
    loads svc text = Ok (Dict d) /\
    d !! "gpg_public_key" = Some id1 /\
    d !! "gcs_bucket" = Some id2 /\
    d !! "recipient_name" = Some id3 /\
    d !! "file_name" = Some (SStr fn) /\
    calls evs !! 2 = Some (AccessSecret (py_str id2 +:+ "/versions/latest") (Ok container)) /\
    logs evs =
      [ (INFO, "Reading config file from path: " +:+ p);
        (INFO, "Reading config file from GCS: " +:+ n);
        (INFO, "Successfully read config file: " +:+ n);
        (INFO, "Successfully fetched secret: " +:+ py_str id1);
        (INFO, "Successfully fetched secret: " +:+ py_str id2);
        (INFO, "Successfully fetched secret: " +:+ py_str id3);
        (INFO, "Successfully read file: " +:+ fn +:+ " from bucket: " +:+ container);
        (INFO, "Encryption successful");
        (INFO, "Encrypted file stored to GCS bucket successfully!") ].
Proof.
  intros Hrun Hstatus.
  pose proof (encrypt_answer_and_log svc args w) as Hanswer.
  pose proof (run_stages_done_logs svc args w) as Hlogs.
  destruct (run_stages svc args w) as [[o w1] evs1].
  rewrite Hrun in Hanswer. destruct o as [|s e].
  - simplify_eq. apply (Hlogs _ _ eq_refl).
  - simplify_eq. destruct s; discriminate.
Qed.

(** X4. Whatever the services answer, the requests of a run are a
    beginning of one fixed sequence: the configuration object, the three
    secrets, the source object, the key import, the encryption, the write.
    Each request but the last succeeded, so a failure ends the run. *)
Theorem requests_in_fixed_order (args : gmap string string) (w : W) :
  map kind_of (calls (events (encrypt svc args w)))
    `prefix_of` [KDownload; KSecret; KSecret; KSecret; KDownload; KImportKeys; KEncrypt; KUpload]
  /\ forallb succeeded (removelast (calls (events (encrypt svc args w)))) = true.
Proof.
  destruct (encrypt_events svc args w) as (resp & w' & evs & Hrun & Hout).
  pose proof (run_stages_shape svc args w) as Hshape.
  destruct (run_stages svc args w) as [[o w1] evs1].
  specialize (Hshape w1 o evs1 eq_refl).
  destruct Hout as (_ & _ & Hcalls & _). destruct Hshape as (Hprefix & Hall & _).
  rewrite Hrun. cbn [events]. rewrite Hcalls. split; assumption.
Qed.

End MoreOfTheRun.

(** ** The helpers on their own *)

Section Helpers.

Context {W : Type} (svc : Services W).

(** X12. [fetch_secret] asks the secret store once, for the identifier
    followed by [/versions/latest], and returns what the store returned: the
    payload, or the same exception raised again.  The record it logs on
    success names the identifier and not the value.  When the client cannot
    be created, nothing is asked and nothing is logged. *)
Theorem fetch_secret_transparent (secret_id : scalar) (w : W) :
  match SecretManagerServiceClient svc w with
  | (Raise e, w1) => fetch_secret svc secret_id w = Ran (Raise e) w1 []
  | (Ok _, w1) =>
      let name := py_str secret_id +:+ "/versions/latest" in
      value (fetch_secret svc secret_id w) = fst (access_secret_version svc name w1) /\
      after (fetch_secret svc secret_id w) = snd (access_secret_version svc name w1) /\
      calls (events (fetch_secret svc secret_id w))
        = [AccessSecret name (fst (access_secret_version svc name w1))] /\
      logs (events (fetch_secret svc secret_id w))
        = [ match fst (access_secret_version svc name w1) with
            | Ok _ => (INFO, "Successfully fetched secret: " +:+ py_str secret_id)
            | Raise e =>
                (ERROR, "Failed to fetch secret for key: " +:+ py_str secret_id
                          +:+ ". Error: " +:+ exn_str e)
            end ]
  end.
Proof.
  unfold fetch_secret. unfold_monad.
  destruct (SecretManagerServiceClient svc w) as [[u|e] w1]; reduce; [|reflexivity].
  destruct (access_secret_version svc (py_str secret_id +:+ "/versions/latest") w1)
    as [[v|e] w2]; reduce; cbn [fst snd]; repeat split.
Qed.

(** X13. [fetch_conf_details] asks the blob store once and returns what it
    returned: the text, or the same exception raised again after an ERROR
    record.  A bucket name that the client rejects raises before the [try]:
    then nothing is asked, and the helper logs no ERROR record. *)
Theorem fetch_conf_details_transparent (bucket_name conf_file_name : string) (w : W) :
  match bucket svc bucket_name with
  | Raise e =>
      fetch_conf_details svc bucket_name conf_file_name w
      = Ran (Raise e) w [Log INFO ("Reading config file from GCS: " +:+ conf_file_name)]
  | Ok _ =>
      let answer := download_as_text svc bucket_name conf_file_name w in
      value (fetch_conf_details svc bucket_name conf_file_name w) = fst answer /\
      after (fetch_conf_details svc bucket_name conf_file_name w) = snd answer /\
      calls (events (fetch_conf_details svc bucket_name conf_file_name w))
        = [Download bucket_name conf_file_name (fst answer)] /\
      length (error_logs (events (fetch_conf_details svc bucket_name conf_file_name w)))
        = if is_ok (fst answer) then 0 else 1
  end.
Proof.
  unfold fetch_conf_details. unfold_monad.
  destruct (bucket svc bucket_name) as [u|e]; reduce; [|reflexivity].
  destruct (download_as_text svc bucket_name conf_file_name w) as [[text|e] w1];
    reduce; cbn [fst snd is_ok]; repeat split.
Qed.

(** X10. A source name that cannot be built is never asked for: when
    [file_path] or [file_name] is [None], the first [try] of
    [read_and_encrypt_data] raises without a request to the blob store and
    leaves the world as it was; the exception is the [TypeError] of the sum
    when the client accepts the bucket name. *)
Theorem read_data_null_name (bucket_name : string) (path name : scalar) (w : W) :
  path = SNone \/ name = SNone ->
  exists e,
    value (read_data svc bucket_name path name w) = Raise e /\
    after (read_data svc bucket_name path name w) = w /\
    calls (events (read_data svc bucket_name path name w)) = [] /\
    (is_ok (bucket svc bucket_name) = true -> exn_class e = "TypeError").
Proof.
  intros Hnull. unfold read_data. unfold_monad.
  destruct (bucket svc bucket_name) as [u|e0]; reduce.
  - destruct Hnull as [-> | ->]; [destruct name | destruct path];
      cbn [py_add]; reduce; eexists; repeat split.
  - eexists. repeat split. discriminate.
Qed.

(** X11. A destination name that cannot be built is never written to: when
    [encrypted_file_path] or [file_name] is [None], [upload_encrypted_data]
    raises without a request to the blob store and leaves the world as it
    was; the exception is the [TypeError] of the sum when the client accepts
    the bucket name. *)
Theorem upload_null_name (bucket_name : string) (encrypted_data : Crypt)
    (path name : scalar) (w : W) :
  path = SNone \/ name = SNone ->
  exists e,
    value (upload_encrypted_data svc bucket_name encrypted_data path name w) = Raise e /\
    after (upload_encrypted_data svc bucket_name encrypted_data path name w) = w /\
    calls (events (upload_encrypted_data svc bucket_name encrypted_data path name w)) = [] /\
    (is_ok (bucket svc bucket_name) = true -> exn_class e = "TypeError").
Proof.
  intros Hnull. unfold upload_encrypted_data. unfold_monad.
  destruct (bucket svc bucket_name) as [u|e0]; reduce.
  - destruct Hnull as [-> | ->]; [destruct name | destruct path];
      cbn [py_add]; reduce; eexists; repeat split.
  - eexists. repeat split. discriminate.
Qed.

End Helpers.

(** ** Loading, field by field *)

Section Loading.

Context {W : Type} (svc : Services W).

Lemma fetch_conf_details_no_secret (b n : string) (w : W) :
  secret_calls (events (fetch_conf_details svc b n w)) = [].
Proof.
  unfold fetch_conf_details. unfold_monad. repeat run_step; reflexivity.
Qed.

(** X8. A configuration document that cannot be used stops the run before
    any secret is asked for: when [json.loads] raises, or the value it
    returns is not an object or has no [gpg_public_key], loading raises that
    exception right after the download, in the world the download left. *)
Theorem bad_document_asks_no_secret (b n text : string) (w w1 : W)
    (evs0 : list event) (e : exn) :
  fetch_conf_details svc b n w = Ran (Ok text) w1 evs0 ->
  loads svc text = Raise e \/
    (exists conf, loads svc text = Ok conf /\ getitem conf "gpg_public_key" = Raise e) ->
  load_settings svc b n w = Ran (Raise e) w1 evs0 /\
  secret_calls (events (load_settings svc b n w)) = [].
Proof.
  intros Hfetch Hbad.
  assert (Hload : load_settings svc b n w = Ran (Raise e) w1 evs0).
  { unfold load_settings. unfold_monad. rewrite Hfetch. reduce.
    destruct Hbad as [-> | (conf & -> & Hget)]; reduce.
    - rewrite app_nil_r. reflexivity.
    - rewrite Hget. rewrite !app_nil_r. reflexivity. }
  split; [exact Hload|].
  rewrite Hload. cbn [events].
  pose proof (fetch_conf_details_no_secret b n w) as Hnone.
  rewrite Hfetch in Hnone. exact Hnone.
Qed.

(** X9. The fields are read in the order of the source, each secret being
    resolved as its field is read: a configuration object that lacks one of
    [file_name], [file_path] and [encrypted_file_path] fails with the
    [KeyError] of the first one missing, and only after its three secrets
    were resolved. *)
Theorem late_key_error (b n text : string) (w w1 w2 w3 w4 : W)
    (evs0 evs1 evs2 evs3 : list event) (d : gmap string scalar)
    (id1 id2 id3 : scalar) (v1 v2 v3 key : string) :
  fetch_conf_details svc b n w = Ran (Ok text) w1 evs0 ->
  loads svc text = Ok (Dict d) ->
  d !! "gpg_public_key" = Some id1 ->
  d !! "gcs_bucket" = Some id2 ->
  d !! "recipient_name" = Some id3 ->
  fetch_secret svc id1 w1 = Ran (Ok v1) w2 evs1 ->
  fetch_secret svc id2 w2 = Ran (Ok v2) w3 evs2 ->
  fetch_secret svc id3 w3 = Ran (Ok v3) w4 evs3 ->
  first_missing d file_fields = Some key ->
  load_settings svc b n w
  = Ran (Raise (Exn "KeyError" ("'" +:+ key +:+ "'"))) w4 (evs0 ++ evs1 ++ evs2 ++ evs3).
Proof.
  intros Hfetch Hloads H1 H2 H3 Hs1 Hs2 Hs3 Hmissing.
  unfold load_settings. unfold_monad.
  rewrite Hfetch. reduce. rewrite Hloads. cbn [getitem].
  rewrite H1, Hs1. reduce. rewrite H2, Hs2. reduce. rewrite H3, Hs3. reduce.
  cbn [first_missing file_fields] in Hmissing.
  destruct (d !! "file_name"); reduce;
    [destruct (d !! "file_path"); reduce;
     [destruct (d !! "encrypted_file_path"); reduce; [discriminate|]|]|];
    simplify_eq; norm_list; reflexivity.
Qed.

End Loading.

Lemma bad_document_asks_no_secret_witness :
  load_settings (Sim.services ∅) "cfgbucket" "app/conf.json" Sim.w0
  = Ran (Raise (Exn "JSONDecodeError" "Expecting value: line 1 column 1 (char 0)")) Sim.w0
      (events (fetch_conf_details (Sim.services ∅) "cfgbucket" "app/conf.json" Sim.w0))
  /\ secret_calls (events (load_settings (Sim.services ∅) "cfgbucket" "app/conf.json" Sim.w0))
     = [].
Proof.
  apply (bad_document_asks_no_secret (Sim.services ∅) "cfgbucket" "app/conf.json"
           Sim.conf_text Sim.w0 Sim.w0).
  - vm_compute. reflexivity.
  - left. vm_compute. reflexivity.
Defined.

Lemma late_key_error_witness :
  load_settings Sim.svc_short "cfgbucket" "app/conf.json" Sim.w0
  = Ran (Raise (Exn "KeyError" ("'" +:+ "file_name" +:+ "'"))) Sim.w0
      (events (fetch_conf_details Sim.svc_short "cfgbucket" "app/conf.json" Sim.w0)
         ++ events (fetch_secret Sim.svc_short (SStr "projects/p/secrets/key") Sim.w0)
         ++ events (fetch_secret Sim.svc_short (SStr "projects/p/secrets/bucket") Sim.w0)
         ++ events (fetch_secret Sim.svc_short (SStr "projects/p/secrets/recipient") Sim.w0)).
Proof.
  apply (late_key_error Sim.svc_short "cfgbucket" "app/conf.json" Sim.conf_text
           Sim.w0 Sim.w0 Sim.w0 Sim.w0 Sim.w0 _ _ _ _ Sim.conf_short
           (SStr "projects/p/secrets/key") (SStr "projects/p/secrets/bucket")
           (SStr "projects/p/secrets/recipient") "KEY:alice" "data-bucket" "alice");
    vm_compute; reflexivity.
Defined.

(** ** The scenario again *)

(** The nine records of the scenario. *)
Lemma success_log_records_witness :
  exists p b n text d id1 id2 id3 fn container,
    Sim.args !! "conf_path" = Some p /\
    parse_conf_path (SStr p) = Ok (b, n) /\
    loads Sim.svc text = Ok (Dict d) /\
    d !! "gpg_public_key" = Some id1 /\
    d !! "gcs_bucket" = Some id2 /\
    d !! "recipient_name" = Some id3 /\
    d !! "file_name" = Some (SStr fn) /\
    calls (events (encrypt Sim.svc Sim.args Sim.w0)) !! 2
      = Some (AccessSecret (py_str id2 +:+ "/versions/latest") (Ok container)) /\
    logs (events (encrypt Sim.svc Sim.args Sim.w0)) =
      [ (INFO, "Reading config file from path: " +:+ p);
        (INFO, "Reading config file from GCS: " +:+ n);
        (INFO, "Successfully read config file: " +:+ n);
        (INFO, "Successfully fetched secret: " +:+ py_str id1);
        (INFO, "Successfully fetched secret: " +:+ py_str id2);
        (INFO, "Successfully fetched secret: " +:+ py_str id3);
        (INFO, "Successfully read file: " +:+ fn +:+ " from bucket: " +:+ container);
        (INFO, "Encryption successful");
        (INFO, "Encrypted file stored to GCS bucket successfully!") ].
Proof.
  apply (success_log_records Sim.svc Sim.args Sim.w0
           (after (encrypt Sim.svc Sim.args Sim.w0))
           (Response [("message", "Success, file was encrypted and stored in GCS.")] None)
           (events (encrypt Sim.svc Sim.args Sim.w0)));
    vm_compute; reflexivity.
Defined.

Example scenario_log :
  logs (events (encrypt Sim.svc Sim.args Sim.w0)) =
    [ (INFO, "Reading config file from path: gs://cfgbucket/app/conf.json");
      (INFO, "Reading config file from GCS: app/conf.json");
      (INFO, "Successfully read config file: app/conf.json");
      (INFO, "Successfully fetched secret: projects/p/secrets/key");
      (INFO, "Successfully fetched secret: projects/p/secrets/bucket");
      (INFO, "Successfully fetched secret: projects/p/secrets/recipient");
      (INFO, "Successfully read file: report.csv from bucket: data-bucket");
      (INFO, "Encryption successful");
      (INFO, "Encrypted file stored to GCS bucket successfully!") ].
Proof. vm_compute. reflexivity. Qed.

(** A configuration whose [file_path] is [null]. *)
Lemma read_data_null_name_witness :
  exists e,
    value (read_data Sim.svc "data-bucket" SNone (SStr "report.csv") Sim.w0) = Raise e /\
    after (read_data Sim.svc "data-bucket" SNone (SStr "report.csv") Sim.w0) = Sim.w0 /\
    calls (events (read_data Sim.svc "data-bucket" SNone (SStr "report.csv") Sim.w0)) = [] /\
    (is_ok (bucket Sim.svc "data-bucket") = true -> exn_class e = "TypeError").
Proof.
  apply (read_data_null_name Sim.svc "data-bucket" SNone (SStr "report.csv") Sim.w0).
  left. reflexivity.
Defined.

(** A configuration whose [encrypted_file_path] is [null]. *)
Lemma upload_null_name_witness :
  exists e,
    value (upload_encrypted_data Sim.svc "data-bucket"
             {| ok := true; stderr := ""; data := "PGP<a,b,c>" |}
             SNone (SStr "report.csv") Sim.w0) = Raise e /\
    after (upload_encrypted_data Sim.svc "data-bucket"
             {| ok := true; stderr := ""; data := "PGP<a,b,c>" |}
             SNone (SStr "report.csv") Sim.w0) = Sim.w0 /\
    calls (events (upload_encrypted_data Sim.svc "data-bucket"
                     {| ok := true; stderr := ""; data := "PGP<a,b,c>" |}
                     SNone (SStr "report.csv") Sim.w0)) = [] /\
    (is_ok (bucket Sim.svc "data-bucket") = true -> exn_class e = "TypeError").
Proof.
  apply (upload_null_name Sim.svc "data-bucket"
           {| ok := true; stderr := ""; data := "PGP<a,b,c>" |}
           SNone (SStr "report.csv") Sim.w0).
  left. reflexivity.
Defined.

(** ** The requests put to the services *)

(** Closing a chain of requests with the equations of the run. *)
Ltac chain := repeat first [eassumption | reflexivity | eexists | split].

Section Replay.

Context {W : Type} (svc : Services W).

(** The requests of a run that ends in [Done] were put to the services one
    after the other, and the world at the end is the one the last of them
    left. *)
Lemma run_stages_done_replays (args : gmap string string) (w w' : W) (evs : list event) :
  run_stages svc args w = (Done, w', evs) -> replays svc (calls evs) w w'.
Proof.
  unfold run_stages, entering, conf_path_of. unfold_stages.
  repeat run_step; intros; simplify_eq.
  repeat match goal with u : unit |- _ => destruct u end.
  norm_list. read_trace. cbn [replays answered]. chain.
Qed.




(** Every encryption request recorded in a run was put to the engine as
    recorded, for one recipient and with [always_trust=True]. *)
Lemma run_stages_encrypt_requests (args : gmap string string) (w w1 : W) (o : outcome)
    (evs : list event) :
  run_stages svc args w = (o, w1, evs) ->
  forall plaintext recipients always_trust r,
    In (Encrypt plaintext recipients always_trust r) evs ->
    exists recipient wa wb,
      recipients = [recipient] /\ always_trust = true /\
      gpg_encrypt svc plaintext [recipient] true wa = (r, wb).
Proof.
  unfold run_stages, entering, conf_path_of. unfold_stages.
  repeat run_step; intros; simplify_eq; norm_list.
  all: match goal with H : In _ _ |- _ => cbn [In] in H end.
  all: repeat match goal with H : _ \/ _ |- _ => destruct H as [H|H] end.
  all: try contradiction; simplify_eq.
  all: chain.
Qed.



(** The view is the same whatever the engine does on a request that is not
    for one recipient with [always_trust=True]. *)
Lemma encrypt_other_encryptions (args : gmap string string) (w : W)
    (other : string -> list string -> bool -> W -> result Crypt * W) :
  encrypt (with_other_encryptions svc other) args w = encrypt svc args w.
Proof. reflexivity. Qed.

End Replay.

Section Written.

Context {W : Type} (svc : Services W).

(** C2. In a run that is answered with status 200 the destination object
    is written: the last request of the run is the write of the store, put
    to [upload_from_string] for the object
    [encrypted_file_path + file_name + ".asc"] of the bucket whose name is the
    value the secret store returned for the identifier in the [gcs_bucket]
    field of the configuration object, the store accepted it, and the world
    the run leaves is the one that write left.  The source was read from
    [file_path + file_name] in that same bucket.  The requests recorded are
    the requests made, one after the other. *)
Theorem destination_of_success (args : gmap string string) (w w' : W)
    (resp : response) (evs : list event) :
  encrypt svc args w = Ran (Ok resp) w' evs ->
  status resp = 200 ->
  exists p b n text d id container fn fp efp plaintext payload w2 w3 w4 w5 w7,
    args !! "conf_path" = Some p /\
    parse_conf_path (SStr p) = Ok (b, n) /\
    calls evs !! 0 = Some (Download b n (Ok text)) /\
    loads svc text = Ok (Dict d) /\
    d !! "gcs_bucket" = Some id /\
    d !! "file_name" = Some (SStr fn) /\
    d !! "file_path" = Some (SStr fp) /\
    d !! "encrypted_file_path" = Some (SStr efp) /\
    calls evs !! 2 = Some (AccessSecret (py_str id +:+ "/versions/latest") (Ok container)) /\
    calls evs !! 4 = Some (Download container (fp +:+ fn) (Ok plaintext)) /\
    uploads evs = [Upload container ((efp +:+ fn) +:+ ".asc") payload (Ok tt)] /\
    last (calls evs) = Some (Upload container ((efp +:+ fn) +:+ ".asc") payload (Ok tt)) /\
    replays svc (calls evs) w w' /\
    access_secret_version svc (py_str id +:+ "/versions/latest") w2 = (Ok container, w3) /\
    download_as_text svc container (fp +:+ fn) w4 = (Ok plaintext, w5) /\
    upload_from_string svc container ((efp +:+ fn) +:+ ".asc") payload w7 = (Ok tt, w').
Proof.
  intros Hrun Hstatus.
  destruct (encrypt_ok_done _ _ _ _ _ _ Hrun Hstatus) as (evs1 & Hstages & Hcalls).
  pose proof (run_stages_done_replays svc _ _ _ _ Hstages) as Hreplay.
  destruct (run_stages_done svc _ _ _ _ Hstages)
    as [p b n text d k1 k2 k3 fn fp efp v1 v2 v3 plain ir c
          Harg Hparse Hloads _ Hk2 _ Hfn Hfp Hefp _ Hlist].
  rewrite <- Hcalls in Hreplay, Hlist.
  rewrite Hlist in Hreplay. pose proof Hreplay as Hchain.
  cbn [replays answered] in Hchain.
  destruct Hchain as (x1 & _ & x2 & _ & x3 & (y3 & _ & Hsecret) & x4 & _
                        & x5 & (_ & Hread) & x6 & _ & x7 & _ & x8 & (_ & Hwrite) & ->).
  exists p, b, n, text, d, k2, v2, fn, fp, efp, plain, (data c), y3, x3, x4, x5, x7.
  rewrite <- (uploads_calls evs), Hlist.
  repeat split; assumption || reflexivity.
Qed.


(** X5. In a run answered with status 200 exactly eight requests are made
    and the values flow from one to the next unchanged: the key put to
    [import_keys] is the value resolved for [gpg_public_key]; the engine is
    then asked, in the world the import left, to encrypt the text read from
    the source for the one recipient resolved for [recipient_name], with
    [always_trust=True]; its result has its success flag set, and the text of
    that result is what [upload_from_string] is asked to write, in the world
    the encryption left. *)
Theorem success_data_flow (args : gmap string string) (w w' : W)
    (resp : response) (evs : list event) :
  encrypt svc args w = Ran (Ok resp) w' evs ->
  status resp = 200 ->
  exists text d id1 id3 key recipient container source plaintext ir c destination
         w4 w5 w6 w7,
    loads svc text = Ok (Dict d) /\
    d !! "gpg_public_key" = Some id1 /\
    d !! "recipient_name" = Some id3 /\
    calls evs !! 1 = Some (AccessSecret (py_str id1 +:+ "/versions/latest") (Ok key)) /\
    calls evs !! 3 = Some (AccessSecret (py_str id3 +:+ "/versions/latest") (Ok recipient)) /\
    calls evs !! 4 = Some (Download container source (Ok plaintext)) /\
    calls evs !! 5 = Some (ImportKeys key (Ok ir)) /\
    calls evs !! 6 = Some (Encrypt plaintext [recipient] true (Ok c)) /\
    ok c = true /\
    calls evs !! 7 = Some (Upload container destination (data c) (Ok tt)) /\
    length (calls evs) = 8 /\
    replays svc (calls evs) w w' /\
    download_as_text svc container source w4 = (Ok plaintext, w5) /\
    import_keys svc key w5 = (Ok ir, w6) /\
    gpg_encrypt svc plaintext [recipient] true w6 = (Ok c, w7) /\
    upload_from_string svc container destination (data c) w7 = (Ok tt, w').
Proof.
  intros Hrun Hstatus.
  destruct (encrypt_ok_done _ _ _ _ _ _ Hrun Hstatus) as (evs1 & Hstages & Hcalls).
  pose proof (run_stages_done_replays svc _ _ _ _ Hstages) as Hreplay.
  destruct (run_stages_done svc _ _ _ _ Hstages)
    as [p b n text d k1 k2 k3 fn fp efp v1 v2 v3 plain ir c
          _ _ Hloads Hk1 _ Hk3 _ _ _ Hok Hlist].
  rewrite <- Hcalls in Hreplay, Hlist.
  rewrite Hlist in Hreplay. pose proof Hreplay as Hchain.
  cbn [replays answered] in Hchain.
  destruct Hchain as (x1 & _ & x2 & _ & x3 & _ & x4 & _
                        & x5 & (_ & Hread) & x6 & Himport & x7 & Hencrypt
                        & x8 & (_ & Hwrite) & ->).
  exists text, d, k1, k3, v1, v3, v2, (fp +:+ fn), plain, ir, c, ((efp +:+ fn) +:+ ".asc"),
    x4, x5, x6, x7.
  rewrite Hlist. repeat split; assumption || reflexivity.
Qed.

(** X14. The engine is asked to encrypt for exactly one recipient and with
    [always_trust=True], and for nothing else, whatever the run: every
    encryption request recorded was put to [gpg.encrypt] with one recipient
    and [always_trust=True], and the run is the same whatever the engine
    does on any other request. *)
Theorem encrypt_always_trusts (args : gmap string string) (w : W) :
  (forall plaintext recipients always_trust r,
     In (Encrypt plaintext recipients always_trust r) (events (encrypt svc args w)) ->
     exists recipient wa wb,
       recipients = [recipient] /\ always_trust = true /\
       gpg_encrypt svc plaintext [recipient] true wa = (r, wb)) /\
  (forall other, encrypt (with_other_encryptions svc other) args w = encrypt svc args w).
Proof.
  split; [|intros other; apply encrypt_other_encryptions].
  intros plaintext recipients always_trust r Hin.
  pose proof (encrypt_answer_and_log svc args w) as Hrun.
  pose proof (run_stages_encrypt_requests svc args w) as Hreq.
  destruct (run_stages svc args w) as [[o w1] evs1].
  specialize (Hreq w1 o evs1 eq_refl plaintext recipients always_trust r).
  apply Hreq. destruct o as [|s e]; rewrite Hrun in Hin; cbn [events] in Hin; [exact Hin|].
  apply in_app_or in Hin. destruct Hin as [Hin | [Hin | []]]; [exact Hin | discriminate].
Qed.

End Written.

(** The scenario of section 8 is such a run: the object is written at
    [out/report.csv.asc] of [data-bucket]. *)
Lemma destination_of_success_witness :
  exists p b n text d id container fn fp efp plaintext payload w2 w3 w4 w5 w7,
    Sim.args !! "conf_path" = Some p /\
    parse_conf_path (SStr p) = Ok (b, n) /\
    calls (events (encrypt Sim.svc Sim.args Sim.w0)) !! 0 = Some (Download b n (Ok text)) /\
    loads Sim.svc text = Ok (Dict d) /\
    d !! "gcs_bucket" = Some id /\
    d !! "file_name" = Some (SStr fn) /\
    d !! "file_path" = Some (SStr fp) /\
    d !! "encrypted_file_path" = Some (SStr efp) /\
    calls (events (encrypt Sim.svc Sim.args Sim.w0)) !! 2
      = Some (AccessSecret (py_str id +:+ "/versions/latest") (Ok container)) /\
    calls (events (encrypt Sim.svc Sim.args Sim.w0)) !! 4
      = Some (Download container (fp +:+ fn) (Ok plaintext)) /\
    uploads (events (encrypt Sim.svc Sim.args Sim.w0))
      = [Upload container ((efp +:+ fn) +:+ ".asc") payload (Ok tt)] /\
    last (calls (events (encrypt Sim.svc Sim.args Sim.w0)))
      = Some (Upload container ((efp +:+ fn) +:+ ".asc") payload (Ok tt)) /\
    replays Sim.svc (calls (events (encrypt Sim.svc Sim.args Sim.w0))) Sim.w0
      (after (encrypt Sim.svc Sim.args Sim.w0)) /\
    access_secret_version Sim.svc (py_str id +:+ "/versions/latest") w2 = (Ok container, w3) /\
    download_as_text Sim.svc container (fp +:+ fn) w4 = (Ok plaintext, w5) /\
    upload_from_string Sim.svc container ((efp +:+ fn) +:+ ".asc") payload w7
      = (Ok tt, after (encrypt Sim.svc Sim.args Sim.w0)).
Proof.
  apply (destination_of_success Sim.svc Sim.args Sim.w0
           (after (encrypt Sim.svc Sim.args Sim.w0))
           (Response [("message", "Success, file was encrypted and stored in GCS.")] None)
           (events (encrypt Sim.svc Sim.args Sim.w0)));
    vm_compute; reflexivity.
Defined.


(** The values of the scenario, from one request to the next. *)
Lemma success_data_flow_witness :
  exists text d id1 id3 key recipient container source plaintext ir c destination
         w4 w5 w6 w7,
    loads Sim.svc text = Ok (Dict d) /\
    d !! "gpg_public_key" = Some id1 /\
    d !! "recipient_name" = Some id3 /\
    calls (events (encrypt Sim.svc Sim.args Sim.w0)) !! 1
      = Some (AccessSecret (py_str id1 +:+ "/versions/latest") (Ok key)) /\
    calls (events (encrypt Sim.svc Sim.args Sim.w0)) !! 3
      = Some (AccessSecret (py_str id3 +:+ "/versions/latest") (Ok recipient)) /\
    calls (events (encrypt Sim.svc Sim.args Sim.w0)) !! 4
      = Some (Download container source (Ok plaintext)) /\
    calls (events (encrypt Sim.svc Sim.args Sim.w0)) !! 5 = Some (ImportKeys key (Ok ir)) /\
    calls (events (encrypt Sim.svc Sim.args Sim.w0)) !! 6
      = Some (Encrypt plaintext [recipient] true (Ok c)) /\
    ok c = true /\
    calls (events (encrypt Sim.svc Sim.args Sim.w0)) !! 7
      = Some (Upload container destination (data c) (Ok tt)) /\
    length (calls (events (encrypt Sim.svc Sim.args Sim.w0))) = 8 /\
    replays Sim.svc (calls (events (encrypt Sim.svc Sim.args Sim.w0))) Sim.w0
      (after (encrypt Sim.svc Sim.args Sim.w0)) /\
    download_as_text Sim.svc container source w4 = (Ok plaintext, w5) /\
    import_keys Sim.svc key w5 = (Ok ir, w6) /\
    gpg_encrypt Sim.svc plaintext [recipient] true w6 = (Ok c, w7) /\
    upload_from_string Sim.svc container destination (data c) w7
      = (Ok tt, after (encrypt Sim.svc Sim.args Sim.w0)).
Proof.
  apply (success_data_flow Sim.svc Sim.args Sim.w0
           (after (encrypt Sim.svc Sim.args Sim.w0))
           (Response [("message", "Success, file was encrypted and stored in GCS.")] None)
           (events (encrypt Sim.svc Sim.args Sim.w0)));
    vm_compute; reflexivity.
Defined.
